(** * mystmd: code directives, tag parsing, accent macros and the site build

    A shallow embedding of
    - the directives of [src/web/prepare.ts]: [parseEmphasizeLines],
      [getCodeBlockOptions], [parseTags], [codeDirective.run] and
      [codeCellDirective.run];
    - the character handlers of the TeX translator: [createText], [addText],
      the [accents] and [symbols] tables and [CHARACTER_HANDLERS];
    - the build of [src/web/prepare.ts]: [cleanBuiltFiles],
      [ensureBuildFoldersExist], [buildProject], [writeSiteManifest],
      [buildSite] and [watchContent].

    JavaScript values are a small inductive type; a JS object used as an
    option bag is a [gmap string JsVal]; code that reports diagnostics or
    throws runs in a state-and-exception monad; the [async] functions are
    terms of a small calculus with an interleaving semantics. *)

From Stdlib Require Import String Ascii List ZArith QArith Bool Lia.
From stdpp Require Import base gmap strings list.
Import ListNotations.

Local Open Scope string_scope.
Local Open Scope list_scope.
Local Set Warnings "-register-all".

(** ** Strings

    A string of the program is held as its UTF-8 encoding, one byte for each
    [ascii], as the string literals of this file are.  A character of Basic
    Latin is one byte; any other character is a lead byte (194 and above)
    followed by continuation bytes (128 to 191), so no character begins
    inside another one.  Strings with a lone surrogate have no encoding and
    are left out.

    White space is what [String.prototype.trim] strips and what the class
    [\s] of a regular expression matches, the WhiteSpace and LineTerminator
    code points of the language:

    - U+0009 to U+000D and U+0020, one byte each;
    - U+00A0, the bytes 194 160;
    - U+1680, the bytes 225 154 128;
    - U+2000 to U+200A, the bytes 226 128 128 to 226 128 138;
    - U+2028, U+2029 and U+202F, the bytes 226 128 168, 169 and 175;
    - U+205F, the bytes 226 129 159;
    - U+3000, the bytes 227 128 128;
    - U+FEFF, the bytes 239 187 191.

    [toLowerCase] maps the capitals of Basic Latin.  The code compares its
    result with "false" and does nothing else with it, and no character
    outside Basic Latin has a lower case among the letters of that word. *)

Module JsString.

Definition dquote : string := String (ascii_of_nat 34) EmptyString.

(** U+00A0, the no-break space. *)
Definition nbsp : string :=
  String (ascii_of_nat 194) (String (ascii_of_nat 160) EmptyString).

Definition is_empty (s : string) : bool :=
  match s with EmptyString => true | _ => false end.

(** The white space of one, of two and of three bytes. *)
Definition is_space1 (a : ascii) : bool :=
  let n := nat_of_ascii a in
  ((9 <=? n)%nat && (n <=? 13)%nat) || (n =? 32)%nat.

Definition is_space2 (a b : ascii) : bool :=
  (nat_of_ascii a =? 194)%nat && (nat_of_ascii b =? 160)%nat.

Definition is_space3 (a b c : ascii) : bool :=
  let x := nat_of_ascii a in
  let y := nat_of_ascii b in
  let z := nat_of_ascii c in
  ((x =? 225)%nat && (y =? 154)%nat && (z =? 128)%nat)
  || ((x =? 226)%nat && (y =? 128)%nat
      && (((128 <=? z)%nat && (z <=? 138)%nat)
          || (z =? 168)%nat || (z =? 169)%nat || (z =? 175)%nat))
  || ((x =? 226)%nat && (y =? 129)%nat && (z =? 159)%nat)
  || ((x =? 227)%nat && (y =? 128)%nat && (z =? 128)%nat)
  || ((x =? 239)%nat && (y =? 187)%nat && (z =? 191)%nat).

(** The number of bytes of the white space character that [s] begins with,
    and 0 when [s] does not begin with white space. *)
Definition space_width (s : string) : nat :=
  match s with
  | EmptyString => 0
  | String a EmptyString => if is_space1 a then 1 else 0
  | String a (String b EmptyString) =>
      if is_space1 a then 1 else if is_space2 a b then 2 else 0
  | String a (String b (String c _)) =>
      if is_space1 a then 1
      else if is_space2 a b then 2
      else if is_space3 a b c then 3 else 0
  end.

Definition is_comma (c : ascii) : bool := (nat_of_ascii c =? 44)%nat.

(** [trimStart_from skip s] drops the [skip] bytes that remain of a white
    space character, and the white space after them. *)
Fixpoint trimStart_from (skip : nat) (s : string) : string :=
  match s with
  | EmptyString => EmptyString
  | String _ s' =>
      match skip with
      | S remaining => trimStart_from remaining s'
      | O =>
          match space_width s with
          | S remaining => trimStart_from remaining s'
          | O => s
          end
      end
  end.

Definition trimStart (s : string) : string := trimStart_from 0 s.

(** Nothing but white space. *)
Definition is_blank (s : string) : bool := is_empty (trimStart s).

(** [trimEnd] cuts the string where nothing but white space follows. *)
Fixpoint trimEnd (s : string) : string :=
  match s with
  | EmptyString => EmptyString
  | String c s' => if is_blank s then EmptyString else String c (trimEnd s')
  end.

Definition trim (s : string) : string := trimEnd (trimStart s).

(** [s.split(sep)] for a separator of one byte: every occurrence ends a
    piece, so the pieces are one more than the separators. *)
Fixpoint split (sep : ascii -> bool) (s : string) : list string :=
  match s with
  | EmptyString => [EmptyString]
  | String c s' =>
      if sep c then EmptyString :: split sep s'
      else match split sep s' with
           | [] => [String c EmptyString]
           | piece :: rest => String c piece :: rest
           end
  end.

(** [s.split(re)] for a regular expression without groups that matches one
    character: [width s] is the number of bytes of the match that [s] begins
    with, and 0 when [re] does not match there.  Every match ends a piece;
    [skip] counts the bytes that remain of the match. *)
Fixpoint split_from (width : string -> nat) (skip : nat) (s : string) : list string :=
  match s with
  | EmptyString => [EmptyString]
  | String c s' =>
      match skip with
      | S remaining => split_from width remaining s'
      | O =>
          match width s with
          | S remaining => EmptyString :: split_from width remaining s'
          | O =>
              match split_from width 0 s' with
              | [] => [String c EmptyString]
              | piece :: rest => String c piece :: rest
              end
          end
      end
  end.

Definition split_regex (width : string -> nat) (s : string) : list string :=
  split_from width 0 s.

Definition lower_ascii (c : ascii) : ascii :=
  let n := nat_of_ascii c in
  if ((65 <=? n)%nat && (n <=? 90)%nat) then ascii_of_nat (n + 32) else c.

Fixpoint toLowerCase (s : string) : string :=
  match s with
  | EmptyString => EmptyString
  | String c s' => String (lower_ascii c) (toLowerCase s')
  end.

Definition startsWith_char (c : ascii) (s : string) : bool :=
  match s with
  | String c' _ => Ascii.eqb c c'
  | EmptyString => false
  end.

Fixpoint endsWith_char (c : ascii) (s : string) : bool :=
  match s with
  | EmptyString => false
  | String c' EmptyString => Ascii.eqb c c'
  | String _ s' => endsWith_char c s'
  end.

End JsString.

(** ** JavaScript values *)

(** A number is a rational, an infinity or NaN: what the comparisons with
    [1], the truthiness test and [Number.isInteger] of this code observe. *)
Inductive JsNumber : Type :=
| NaN
| PosInf
| NegInf
| Fin (q : Q).

(** [VBuiltin name] is a function or an object that the runtime provides,
    such as the methods that every object inherits from [Object.prototype];
    [name] is the property under which it is found. *)
Inductive JsVal : Type :=
| VUndefined
| VNull
| VBool (b : bool)
| VNum (n : JsNumber)
| VStr (s : string)
| VArr (elems : list JsVal)
| VObj (fields : list (string * JsVal))
| VBuiltin (name : string).

Module Js.

Definition num_truthy (n : JsNumber) : bool :=
  match n with
  | NaN => false
  | PosInf | NegInf => true
  | Fin q => negb (Qeq_bool q 0)
  end.

(** [!!v] *)
Definition truthy (v : JsVal) : bool :=
  match v with
  | VUndefined | VNull => false
  | VBool b => b
  | VNum n => num_truthy n
  | VStr s => negb (JsString.is_empty s)
  | VArr _ | VObj _ | VBuiltin _ => true
  end.

(** [v == null] *)
Definition nullish (v : JsVal) : bool :=
  match v with
  | VUndefined | VNull => true
  | _ => false
  end.

(** [a ?? b] *)
Definition coalesce (a b : JsVal) : JsVal := if nullish a then b else a.

Definition is_string (v : JsVal) : bool :=
  match v with VStr _ => true | _ => false end.

(** [Array.isArray(v)] *)
Definition isArray (v : JsVal) : bool :=
  match v with VArr _ => true | _ => false end.

(** [Number.isInteger] *)
Definition isInteger (n : JsNumber) : bool :=
  match n with
  | Fin q => (Qnum q mod Zpos (Qden q) =? 0)%Z
  | _ => false
  end.

(** [1 < n] and [n <= 1] on numbers; both are false on NaN. *)
Definition num_gt_one (n : JsNumber) : bool :=
  match n with
  | NaN | NegInf => false
  | PosInf => true
  | Fin q => negb (Qle_bool q 1)
  end.

Definition num_le_one (n : JsNumber) : bool :=
  match n with
  | NaN | PosInf => false
  | NegInf => true
  | Fin q => Qle_bool q 1
  end.

End Js.

(** ** Completions, diagnostics and the monad *)

Inductive JsError : Type :=
| TypeError (what : string)
| RangeError (what : string)
| YAMLException (what : string).

Inductive Completion (A : Type) : Type :=
| Normal (a : A)
| Thrown (e : JsError).
Arguments Normal {A} a.
Arguments Thrown {A} e.

Inductive RuleId : Type :=
| directiveOptionsCorrect.

(** One entry of [vfile.messages]: [fileWarn] leaves [fatal] false,
    [fileError] sets it. *)
Record VFileMessage : Type := {
  msg_fatal : bool;
  msg_reason : string;
  msg_node : JsVal;
  msg_source : string;
  msg_ruleId : RuleId
}.

(** What the code can change: the messages of the [VFile] it is given and
    the number of ids drawn from [nanoid]. *)
Record World : Type := {
  messages : list VFileMessage;
  ids_drawn : nat
}.

Definition M (A : Type) : Type := World -> Completion A * World.

Definition ret {A} (a : A) : M A := fun w => (Normal a, w).

Definition throw {A} (e : JsError) : M A := fun w => (Thrown e, w).

Definition bind {A B} (m : M A) (k : A -> M B) : M B :=
  fun w =>
    match m w with
    | (Normal a, w') => k a w'
    | (Thrown e, w') => (Thrown e, w')
    end.

(** [try { body } catch (error) { handler }] *)
Definition try_catch {A} (body : M A) (handler : JsError -> M A) : M A :=
  fun w =>
    match body w with
    | (Normal a, w') => (Normal a, w')
    | (Thrown e, w') => handler e w'
    end.

Notation "'let*' x ':=' m 'in' k" := (bind m (fun x => k))
  (at level 10, x name, m at level 100, k at level 200).
Notation "m ';;' k" := (bind m (fun _ => k))
  (at level 100, k at level 200, right associativity).

Record MessageOptions : Type := {
  opt_node : JsVal;
  opt_source : string;
  opt_ruleId : RuleId
}.

Definition add_message (fatal : bool) (reason : string) (o : MessageOptions) : M unit :=
  fun w =>
    (Normal tt,
     {| messages := messages w ++
          [ {| msg_fatal := fatal; msg_reason := reason; msg_node := opt_node o;
               msg_source := opt_source o; msg_ruleId := opt_ruleId o |} ];
        ids_drawn := ids_drawn w |}).

(** Modelled from the spec: [fileWarn] and [fileError] of myst-common are not
    among the sources.  A warning is a recoverable diagnostic and an error a
    malformed-input diagnostic; each call attaches one message to the file. *)
Definition fileWarn : string -> MessageOptions -> M unit := add_message false.
Definition fileError : string -> MessageOptions -> M unit := add_message true.


(** The world after more messages have reached the file. *)
Definition with_messages (w : World) (ms : list VFileMessage) : World :=
  {| messages := messages w ++ ms; ids_drawn := ids_drawn w |}.

(** ** Directive data *)

(** [DirectiveData]: the argument, the option bag (which may be missing), the
    body and the source node of the directive. *)
Record DirectiveData : Type := {
  data_arg : JsVal;
  data_options : option (gmap string JsVal);
  data_body : JsVal;
  data_node : JsVal
}.

(** [options?.[key]] *)
Definition opt (options : option (gmap string JsVal)) (key : string) : JsVal :=
  match options with
  | None => VUndefined
  | Some o => default VUndefined (o !! key)
  end.

(** The part of a [Code] node that [getCodeBlockOptions] picks. *)
Record CodeBlockOptions : Type := {
  emphasizeLines : JsVal;
  showLineNumbers : JsVal;
  startingLineNumber : JsVal;
  filename : JsVal
}.

(** [label] and [identifier] are properties that only some paths assign:
    [None] is a property that was never set, [Some v] one that was assigned
    [v] (which may itself be [undefined]). *)
Record Code : Type := {
  code_lang : JsVal;
  code_class : JsVal;
  code_opts : option CodeBlockOptions;
  code_executable : option bool;
  code_value : JsVal;
  code_label : option JsVal;
  code_identifier : option JsVal
}.

Inductive Node : Type :=
| NCode (c : Code)
| NParagraph (children : JsVal)
| NCaption (children : list Node)
| NContainer (kind : string) (label identifier : JsVal) (children : list Node)
| NOutput (id : string) (data : list JsVal)
| NBlock (label identifier : JsVal) (children : list Node)
         (data_type : string) (data_tags : option JsVal).

Record NormalizedLabel : Type := {
  nl_label : JsVal;
  nl_identifier : JsVal
}.


(** The [Code] node that [codeDirective.run] builds before it looks at the
    caption: the language, the class, the options picked by
    [getCodeBlockOptions] and the body; no [label] and no [identifier] yet. *)
Definition plain_code (data : DirectiveData) (opts : CodeBlockOptions) : Code :=
  {| code_lang := data_arg data;
     code_class := opt (data_options data) "class";
     code_opts := Some opts;
     code_executable := None;
     code_value := data_body data;
     code_label := None;
     code_identifier := None |}.

(** [code.label = label; code.identifier = identifier] *)
Definition labelled (c : Code) (label identifier : JsVal) : Code :=
  {| code_lang := code_lang c;
     code_class := code_class c;
     code_opts := code_opts c;
     code_executable := code_executable c;
     code_value := code_value c;
     code_label := Some label;
     code_identifier := Some identifier |}.

Section Directives.

(** What the JavaScript runtime and the libraries provide.  [StringToNumber]
    and [ObjectToNumber] are the string and the object case of the
    language's [ToNumber]; [select] is unist-util-select's and answers
    [null] when nothing matches; [normalizeLabel] is myst-common's and
    answers [undefined] for a missing label; [yaml_load] is js-yaml's
    [load], which throws on malformed input; [nanoid_nth n] is the id the
    [n]-th call of [nanoid] yields. *)
Variable StringToNumber : string -> JsNumber.
Variable ObjectToNumber : JsVal -> JsNumber.
Variable select : string -> JsVal -> JsVal.
Variable normalizeLabel : JsVal -> option NormalizedLabel.
Variable yaml_load : string -> Completion JsVal.
Variable nanoid_nth : nat -> string.

(** [ToNumber] *)
Definition ToNumber (v : JsVal) : JsNumber :=
  match v with
  | VUndefined => NaN
  | VNull => Fin 0
  | VBool b => if b then Fin 1 else Fin 0
  | VNum n => n
  | VStr s => StringToNumber s
  | VArr _ | VObj _ | VBuiltin _ => ObjectToNumber v
  end.

(** [v > 1] and [v <= 1]: the other operand is a number, so both sides are
    compared as numbers. *)
Definition gt_one (v : JsVal) : bool := Js.num_gt_one (ToNumber v).
Definition le_one (v : JsVal) : bool := Js.num_le_one (ToNumber v).

Definition parseEmphasizeLines (emphasizeLinesString : JsVal) : M JsVal :=
  if negb (Js.truthy emphasizeLinesString) then ret VUndefined
  else
    match emphasizeLinesString with
    | VStr s =>
        let emphasizeLines :=
          List.filter Js.isInteger
            (map (fun val => StringToNumber (JsString.trim val))
               (JsString.split JsString.is_comma s)) in
        ret (VArr (map VNum emphasizeLines))
    | _ => throw (TypeError "emphasizeLinesString.split is not a function")
    end.

Definition both_linenos_message : string :=
  "Cannot use both " ++ JsString.dquote ++ "lineno-start" ++ JsString.dquote
  ++ " and " ++ JsString.dquote ++ "number-lines" ++ JsString.dquote.

Definition option_selector (name : string) : string :=
  "mystDirectiveOption[name=" ++ JsString.dquote ++ name ++ JsString.dquote ++ "]".

(** The message that the warning about the two line-number options leaves. *)
Definition both_linenos_warning (data : DirectiveData) : VFileMessage :=
  {| msg_fatal := false;
     msg_reason := both_linenos_message;
     msg_node :=
       Js.coalesce (select (option_selector "number-lines") (data_node data))
         (data_node data);
     msg_source := "code-block:options";
     msg_ruleId := directiveOptionsCorrect |}.

(** [filename?.toLowerCase()]: [undefined] on a nullish receiver, a
    [TypeError] on any other value that is not a string. *)
Definition filename_toLowerCase (filename : JsVal) : M JsVal :=
  match filename with
  | VUndefined | VNull => ret VUndefined
  | VStr s => ret (VStr (JsString.toLowerCase s))
  | _ => throw (TypeError "filename.toLowerCase is not a function")
  end.

Definition strict_eq_string (v : JsVal) (s : string) : bool :=
  match v with
  | VStr s' => String.eqb s' s
  | _ => false
  end.

Definition getCodeBlockOptions (data : DirectiveData) (defaultFilename : JsVal)
  : M CodeBlockOptions :=
  let options := data_options data in
  let node := data_node data in
  (if negb (Js.nullish (opt options "lineno-start"))
      && negb (Js.nullish (opt options "number-lines"))
   then
     fileWarn both_linenos_message
       {| opt_node := Js.coalesce (select (option_selector "number-lines") node) node;
          opt_source := "code-block:options";
          opt_ruleId := directiveOptionsCorrect |}
   else ret tt) ;;
  let* emphasizeLines := parseEmphasizeLines (opt options "emphasize-lines") in
  let numberLines := opt options "number-lines" in
  let showLineNumbers :=
    if Js.truthy (opt options "linenos") || Js.truthy (opt options "lineno-start")
       || Js.truthy (opt options "lineno-match") || Js.truthy numberLines
    then VBool true else VUndefined in
  let startingLineNumber :=
    if negb (Js.nullish numberLines) && gt_one numberLines
    then numberLines else opt options "lineno-start" in
  let startingLineNumber :=
    if Js.truthy (opt options "lineno-match") then VStr "match"
    else if Js.nullish startingLineNumber || le_one startingLineNumber
         then VUndefined
         else startingLineNumber in
  let filename := opt options "filename" in
  let* lowered := filename_toLowerCase filename in
  let filename :=
    if strict_eq_string lowered "false" then VUndefined
    else if negb (Js.truthy filename) && Js.truthy defaultFilename
         then defaultFilename
         else filename in
  ret {| emphasizeLines := emphasizeLines;
         showLineNumbers := showLineNumbers;
         startingLineNumber := startingLineNumber;
         filename := filename |}.

(** [list.map((t) => t.trim()).filter((t) => !!t)] *)
Definition trim_and_drop_empty (l : list string) : list string :=
  List.filter (fun t => negb (JsString.is_empty t)) (map JsString.trim l).

(** What [/[,\s]/] matches where [s] begins: a comma or a white space
    character; the number of its bytes, and 0 when there is no match. *)
Definition tag_separator (s : string) : nat :=
  match s with
  | EmptyString => 0
  | String c _ => if JsString.is_comma c then 1 else JsString.space_width s
  end.

(** The strings of an array whose elements are all strings. *)
Definition strings_of (l : list JsVal) : list string :=
  flat_map (fun v => match v with VStr s => [s] | _ => [] end) l.

Definition tags_selector_options (node : JsVal) : MessageOptions :=
  {| opt_node := Js.coalesce (select (option_selector "tags") node) node;
     opt_source := "code-cell:tags";
     opt_ruleId := directiveOptionsCorrect |}.

(** The messages that [parseTags] leaves. *)
Definition tags_message (fatal : bool) (reason : string) (node : JsVal) : VFileMessage :=
  {| msg_fatal := fatal;
     msg_reason := reason;
     msg_node := Js.coalesce (select (option_selector "tags") node) node;
     msg_source := "code-cell:tags";
     msg_ruleId := directiveOptionsCorrect |}.

Definition tags_load_error : JsVal -> VFileMessage :=
  tags_message true "Could not load tags for code-cell directive".

Definition tags_not_strings_warning : JsVal -> VFileMessage :=
  tags_message false "tags in code-cell directive must be a list of strings".

Definition is_bracketed (s : string) : bool :=
  JsString.startsWith_char "[" s && JsString.endsWith_char "]" s.

(** [parseTags] calls itself on what [yaml.load] returns.  [depth] is the
    number of nested calls the engine still allows: a call beyond it throws
    a [RangeError], inside the [try] block like every other exception of
    the recursive call. *)
Fixpoint parseTags (depth : nat) (input : JsVal) (node : JsVal) : M JsVal :=
  if negb (Js.truthy input) then ret VUndefined
  else
    match input with
    | VStr s =>
        if is_bracketed s then
          try_catch
            (match depth with
             | O => throw (RangeError "Maximum call stack size exceeded")
             | S depth' =>
                 match yaml_load s with
                 | Normal loaded => parseTags depth' loaded node
                 | Thrown e => throw e
                 end
             end)
            (fun _ =>
               fileError "Could not load tags for code-cell directive"
                 (tags_selector_options node) ;;
               ret VUndefined)
        else
          let tags := trim_and_drop_empty (JsString.split_regex tag_separator s) in
          ret (if (0 <? length tags)%nat then VArr (map VStr tags) else VUndefined)
    | VArr tags =>
        if forallb Js.is_string tags then
          if (0 <? length tags)%nat
          then ret (VArr (map VStr (trim_and_drop_empty (strings_of tags))))
          else ret VUndefined
        else
          fileWarn "tags in code-cell directive must be a list of strings"
            (tags_selector_options node) ;;
          ret VUndefined
    | _ => ret VUndefined
    end.

(** [const { label, identifier } = normalizeLabel(...) || {}] *)
Definition label_of (n : option NormalizedLabel) : JsVal :=
  match n with Some l => nl_label l | None => VUndefined end.
Definition identifier_of (n : option NormalizedLabel) : JsVal :=
  match n with Some l => nl_identifier l | None => VUndefined end.

Definition codeDirective_run (data : DirectiveData) : M (list Node) :=
  let normalized := normalizeLabel (opt (data_options data) "label") in
  let label := label_of normalized in
  let identifier := identifier_of normalized in
  let* opts := getCodeBlockOptions data VUndefined in
  let code := plain_code data opts in
  if negb (Js.truthy (opt (data_options data) "caption")) then
    (* code.label = label; code.identifier = identifier *)
    ret [ NCode (labelled code label identifier) ]
  else
    let caption := NCaption [ NParagraph (opt (data_options data) "caption") ] in
    let container := NContainer "code" label identifier [ NCode code; caption ] in
    ret [ container ].

(** [nanoid()] *)
Definition nanoid : M string :=
  fun w =>
    (Normal (nanoid_nth (ids_drawn w)),
     {| messages := messages w; ids_drawn := S (ids_drawn w) |}).

Definition codeCellDirective_run (depth : nat) (data : DirectiveData) : M (list Node) :=
  let normalized := normalizeLabel (opt (data_options data) "label") in
  let label := label_of normalized in
  let identifier := identifier_of normalized in
  let code :=
    {| code_lang := data_arg data;
       code_class := VUndefined;
       code_opts := None;
       code_executable := Some true;
       code_value := Js.coalesce (data_body data) (VStr EmptyString);
       code_label := None;
       code_identifier := None |} in
  let* id := nanoid in
  let output := NOutput id [] in
  let* tags := parseTags depth (opt (data_options data) "tags") (data_node data) in
  ret [ NBlock label identifier [ NCode code; output ] "notebook-code"
          (if Js.truthy tags then Some tags else None) ].

End Directives.

(** ** The character handlers of the TeX translator *)

Module Tex.

(** An object literal with string keys, in source order.  A key written
    twice keeps its last value.  [get_own o key] looks [key] up among the
    keys that the literal writes. *)
Definition ObjectLiteral (V : Type) : Type := list (string * V).

Fixpoint get_own {V} (o : ObjectLiteral V) (key : string) : option V :=
  match o with
  | [] => None
  | (k, v) :: rest =>
      match get_own rest key with
      | Some later => Some later
      | None => if String.eqb k key then Some v else None
      end
  end.

(** The properties that an object literal inherits from [Object.prototype]:
    the constructor, the methods, and the accessor [__proto__], which
    answers the prototype itself.  Each of them holds a function or an
    object. *)
Definition Object_prototype : list string :=
  [ "constructor"; "hasOwnProperty"; "isPrototypeOf"; "propertyIsEnumerable";
    "toLocaleString"; "toString"; "valueOf";
    "__defineGetter__"; "__defineSetter__"; "__lookupGetter__"; "__lookupSetter__";
    "__proto__" ].

Definition inherited (key : string) : bool :=
  existsb (String.eqb key) Object_prototype.

(** [o[key]] on an object literal whose values are strings: the value that
    the literal writes; or else what the object inherits under that name;
    or else [undefined]. *)
Definition get (o : ObjectLiteral string) (key : string) : JsVal :=
  match get_own o key with
  | Some v => VStr v
  | None => if inherited key then VBuiltin key else VUndefined
  end.

(** [Object.fromEntries] and the spread of one object after another: later
    entries overwrite earlier ones. *)
Definition fromEntries {V} (entries : list (string * V)) : gmap string V :=
  fold_left (fun m kv => <[fst kv := snd kv]> m) entries ∅.

Definition spread {V} (first second : gmap string V) : gmap string V :=
  second ∪ first.

(** The three methods of [ITexParser] that the handlers use. *)
Class ITexParser (State : Type) : Type := {
  openParagraph : State -> State;
  text : JsVal -> bool -> State -> State;
  warn : string -> JsVal -> string -> State -> State
}.

Section Handlers.

Context {State : Type} `{ITexParser State}.

(** [texToText(getArguments(node, 'group'))], from the translator's utils. *)
Variable group_text : JsVal -> string.

Definition createText (state : State) (node : JsVal) (translate : ObjectLiteral string)
  : State :=
  let state := openParagraph state in
  let value := group_text node in
  let converted := get translate value in
  if Js.truthy converted then text converted false state
  else
    let state := warn ("Unknown character " ++ value)%string node "tex-to-myst:characters" state in
    text converted false state.

Definition addText (state : State) (value : JsVal) : State :=
  if negb (Js.truthy value) then state
  else text value false (openParagraph state).

End Handlers.

Definition accents : ObjectLiteral (ObjectLiteral string) :=
  [ ("`", [ ("o", "ò"); ("O", "Ò") ]);
    ("'", [ ("o", "ó"); ("O", "Ó") ]);
    ("^", [ (EmptyString, "^"); ("o", "ô"); ("i", "î"); ("y", "ŷ");
            ("O", "Ô"); ("I", "Î"); ("Y", "Ŷ") ]);
    (JsString.dquote, [ ("o", "ö"); ("u", "ü"); ("i", "ï");
                        ("O", "Ö"); ("U", "Ü"); ("I", "Ï") ]);
    ("H", [ ("o", "ő"); ("O", "Ő") ]);
    ("~", [ (EmptyString, "~"); ("o", "õ"); ("n", "ñ"); ("O", "Õ"); ("N", "Ñ");
            ("u", "ũ"); ("U", "Ũ"); ("e", "ẽ"); ("E", "Ẽ"); ("i", "ĩ"); ("I", "Ĩ") ]);
    ("c", [ ("c", "ç"); ("C", "Ç") ]);
    ("k", [ ("a", "ą"); ("A", "Ą") ]);
    ("l", [ (EmptyString, "ł") ]);
    ("=", [ ("o", "ō"); ("O", "Ō") ]);
    (".", [ ("o", "ȯ"); ("O", "Ȯ") ]);
    ("d", [ ("u", "ụ"); ("U", "Ụ") ]);
    ("r", [ ("a", "å"); ("A", "Å") ]);
    ("u", [ ("o", "ŏ"); ("O", "Ŏ") ]);
    ("v", [ ("s", "š"); ("S", "Š") ]);
    ("t", [ ("oo", "o͡o"); ("OO", "O͡O") ]);
    ("o", [ (EmptyString, "ø") ]);
    ("i", [ (EmptyString, "ı") ]) ].

Definition symbols : ObjectLiteral string :=
  [ ("%", "%"); ("$", "$"); ("&", "&"); ("{", "{"); ("}", "}"); ("_", "_");
    ("P", "¶"); ("dag", "†"); ("ddag", "‡"); ("textbar", "|");
    ("textgreater", ">"); ("textless", "<"); ("textendash", "–");
    ("textemdash", "—"); ("texttrademark", "™"); ("textregistered", "®");
    ("copyright", "©"); ("textexclamdown", "¡"); ("textquestiondown", "¿");
    ("pounds", "£"); ("euro", "€"); ("#", "#"); ("S", "§");
    ("textbackslash", "\"); ("textcelsius", "℃"); ("degreeCelsius", "℃");
    ("celsius", "℃"); ("aa", "å"); ("AA", "Å"); ("dots", "…"); ("ldots", "…");
    ("textellipsis", "…"); ("textdegree", "º"); ("textasciitilde", "~");
    ("textvisiblespace", " ") ].

(** A handler of the table is one of the two closures the source builds. *)
Inductive Handler : Type :=
| AccentHandler (translate : ObjectLiteral string)
| SymbolHandler (symbol : string).

Definition CHARACTER_HANDLERS : gmap string Handler :=
  spread
    (fromEntries
       (map (fun entry => (("macro_" ++ fst entry)%string, AccentHandler (snd entry))) accents))
    (fromEntries
       (map (fun entry => (("macro_" ++ fst entry)%string, SymbolHandler (snd entry))) symbols)).

Definition run_handler {State : Type} `{ITexParser State} (group_text : JsVal -> string)
    (h : Handler) (node : JsVal) (state : State) : State :=
  match h with
  | AccentHandler translate => createText group_text state node translate
  | SymbolHandler symbol => addText state (VStr symbol)
  end.

(** The calls a handler makes, in order: an implementation of the interface
    that only records. *)
Inductive Call : Type :=
| CallOpenParagraph
| CallText (value : JsVal) (escape : bool)
| CallWarn (message : string) (node : JsVal) (source : string).

#[global] Instance recording_parser : ITexParser (list Call) := {
  openParagraph calls := calls ++ [CallOpenParagraph];
  text value escape calls := calls ++ [CallText value escape];
  warn message node source calls := calls ++ [CallWarn message node source]
}.

End Tex.

(** ** The site build *)

Module Build.

(** *** Data *)

Record Options : Type := {
  force : bool;
  clean : bool
}.

Record SiteProject : Type := {
  path : string;
  slug : string
}.

(** An entry of [project.pages]: a page with a [slug], or an entry without
    one, which the build skips. *)
Inductive ProjectPage : Type :=
| LocalProjectPage (file : string) (page_slug : string)
| OtherEntry (title : string).

Definition has_slug (page : ProjectPage) : bool :=
  match page with LocalProjectPage _ _ => true | OtherEntry _ => false end.

Record Project : Type := {
  project_file : string;
  project_index : string;
  project_pages : list ProjectPage
}.

Record SiteConfig : Type := {
  projects : list SiteProject
}.

(** What [selectors.selectLocalSiteConfig(session.store.getState())] finds. *)
Record Session : Type := {
  local_site_config : option SiteConfig
}.

(** *** Effects and events *)

Inductive LogMessage : Type :=
| MsgCleanBuildFiles
| MsgBuildFoldersCreated
| MsgSiteConfig (config : option SiteConfig)
| MsgBuilt (touched total : nat) (project_slug : string)
| MsgLoadedFromCache (total : nat) (project_slug : string)
| MsgWritingSiteConfig
| MsgFileModified (filename eventType : string)
| MsgRebuildingEverything.

(** The synchronous calls on the file system and the log. *)
Inductive Effect : Type :=
| RmContent
| RmStatic
| MkdirContent
| MkdirStatic
| LogInfo (m : LogMessage)
| LogDebug (m : LogMessage)
| WriteConfigJson.

(** The asynchronous methods of [DocumentCache]. *)
Inductive ExtOp : Type :=
| GetCitationRenderer (project_path : string)
| ProcessFile (siteProject : SiteProject) (page : ProjectPage).

(** What a promise is fulfilled with.  [PageResults] is what [processFile]
    yields: the [processed] flag of each page it reports. *)
Inductive Value : Type :=
| Unit
| Renderer
| PageResults (processed : list bool)
| Built (pages : list Value) (touched : nat)
| Cache.

Inductive Event : Type :=
| EvEffect (e : Effect)
| EvCall (op : ExtOp)
| EvFulfilled (op : ExtOp) (v : Value)
| EvRejected (op : ExtOp) (e : JsError).

(** *** Asynchronous code

    The body of an [async] function: [Perform] is a synchronous call whose
    result is not used, [Ext] the call of an asynchronous method of another
    module, [Await t k] is [const x = await t; k x] and [AwaitAll ts k] is
    [const xs = await Promise.all(ts); k xs].  The file-system calls are
    taken to succeed. *)
Inductive Async : Type :=
| Return (v : Value)
| Throw (e : JsError)
| Perform (eff : Effect) (k : Async)
| Ext (op : ExtOp)
| Await (t : Async) (k : Value -> Async)
| AwaitAll (ts : list Async) (k : list Value -> Async).

(** A call that has been started: settled, an external promise that is still
    pending, or suspended at an [await]. *)
Inductive Run : Type :=
| RDone (c : Completion Value)
| RExt (op : ExtOp)
| RWait (child : Run) (k : Value -> Async)
| RWaitAll (children : list Run) (k : list Value -> Async).

(** Calling an [async] function runs it up to its first [await]; the array
    given to [Promise.all] is built left to right, each call running up to
    its own first [await]. *)
Fixpoint start (t : Async) : Run * list Event :=
  match t with
  | Return v => (RDone (Normal v), [])
  | Throw e => (RDone (Thrown e), [])
  | Perform eff k => let (r, es) := start k in (r, EvEffect eff :: es)
  | Ext op => (RExt op, [EvCall op])
  | Await t k => let (r, es) := start t in (RWait r k, es)
  | AwaitAll ts k =>
      let started := map start ts in
      (RWaitAll (map fst started) k, concat (map snd started))
  end.

Definition pending (r : Run) : bool :=
  match r with RDone _ => false | _ => true end.

Definition fulfilled (v : Value) : Run := RDone (Normal v).

(** One turn of the event loop inside a run: the events it emits, the runs
    it leaves behind, and the run that remains.
    - an external promise is fulfilled or rejected;
    - an [await] whose promise is fulfilled resumes with the value, one whose
      promise is rejected throws;
    - [Promise.all] resumes once every promise is fulfilled and rejects as
      soon as one is rejected, leaving the others running. *)
Inductive run_step : Run -> list Event -> list Run -> Run -> Prop :=
| step_fulfil op v :
    run_step (RExt op) [EvFulfilled op v] [] (RDone (Normal v))
| step_reject op e :
    run_step (RExt op) [EvRejected op e] [] (RDone (Thrown e))
| step_wait_child c es os c' k :
    run_step c es os c' ->
    run_step (RWait c k) es os (RWait c' k)
| step_wait_resume v k :
    run_step (RWait (RDone (Normal v)) k) (snd (start (k v))) [] (fst (start (k v)))
| step_wait_throw e k :
    run_step (RWait (RDone (Thrown e)) k) [] [] (RDone (Thrown e))
| step_all_child before c after es os c' k :
    run_step c es os c' ->
    run_step (RWaitAll (before ++ c :: after) k) es os
             (RWaitAll (before ++ c' :: after) k)
| step_all_resume vs k :
    run_step (RWaitAll (map fulfilled vs) k)
             (snd (start (k vs))) [] (fst (start (k vs)))
| step_all_reject before e after k :
    run_step (RWaitAll (before ++ RDone (Thrown e) :: after) k) []
             (List.filter pending (before ++ after)) (RDone (Thrown e)).

(** The whole program: the call under study, the runs that a rejected
    [Promise.all] left behind, and everything that happened so far. *)
Record Config : Type := {
  main : Run;
  orphans : list Run;
  trace : list Event
}.

Inductive config_step : Config -> list Event -> Config -> Prop :=
| step_main c es os r' :
    run_step (main c) es os r' ->
    config_step c es
      {| main := r'; orphans := orphans c ++ os; trace := trace c ++ es |}
| step_orphan c before o after es os o' :
    orphans c = before ++ o :: after ->
    run_step o es os o' ->
    config_step c es
      {| main := main c; orphans := before ++ o' :: after ++ os;
         trace := trace c ++ es |}.

Definition initial (t : Async) : Config :=
  {| main := fst (start t); orphans := []; trace := snd (start t) |}.

Inductive reachable (t : Async) : Config -> Prop :=
| reach_initial : reachable t (initial t)
| reach_step c es c' : reachable t c -> config_step c es c' -> reachable t c'.

(** The runs a call can turn into. *)
Inductive run_of : Run -> Run -> Prop :=
| run_here r : run_of r r
| run_later r es os r' r'' : run_of r r' -> run_step r' es os r'' -> run_of r r''.

(** The number of external promises that are pending inside a run. *)
Fixpoint in_flight (r : Run) : nat :=
  match r with
  | RDone _ => 0
  | RExt _ => 1
  | RWait c _ => in_flight c
  | RWaitAll cs _ => list_sum (map in_flight cs)
  end.

(** *** The functions of prepare.ts *)

Section Site.

(** [loadProjectConfigFromDisk(store, path)], from the toc module. *)
Variable loadProjectConfigFromDisk : string -> Completion Project.

(** [cleanBuiltFiles(session, opts)], followed by [k]; [info] is left at its
    default [true]. *)
Definition cleanBuiltFiles (k : Async) : Async :=
  Perform RmContent
    (Perform RmStatic
       (Perform (LogInfo MsgCleanBuildFiles) k)).

Definition ensureBuildFoldersExist (k : Async) : Async :=
  Perform (LogDebug MsgBuildFoldersCreated)
    (Perform MkdirContent
       (Perform MkdirStatic k)).

(** [pages.flat().filter(({ processed }) => processed).length] *)
Definition processed_of (v : Value) : list bool :=
  match v with PageResults l => l | _ => [] end.

Definition count_touched (pages : list Value) : nat :=
  length (List.filter (fun processed => processed) (flat_map processed_of pages)).

(** [buildProject] after [Promise.all] has returned the pages. *)
Definition buildProject_report (siteProject : SiteProject) (pages : list Value) : Async :=
  let touched := count_touched pages in
  Perform
    (LogInfo (if (0 <? touched)%nat
              then MsgBuilt touched (length pages) (slug siteProject)
              else MsgLoadedFromCache (length pages) (slug siteProject)))
    (Return (Built pages touched)).

(** [buildProject] after the citation renderer has been awaited. *)
Definition buildProject_pages (siteProject : SiteProject) (project : Project)
    (_ : Value) : Async :=
  AwaitAll
    (Ext (ProcessFile siteProject
            (LocalProjectPage (project_file project) (project_index project)))
     :: map (fun page => Ext (ProcessFile siteProject page))
          (List.filter has_slug (project_pages project)))
    (buildProject_report siteProject).

Definition buildProject (siteProject : SiteProject) : Async :=
  match loadProjectConfigFromDisk (path siteProject) with
  | Thrown e => Throw e
  | Normal project =>
      Await (Ext (GetCitationRenderer (path siteProject)))
        (buildProject_pages siteProject project)
  end.

Definition writeSiteManifest : Async :=
  Perform (LogInfo MsgWritingSiteConfig)
    (Perform WriteConfigJson (Return Unit)).

(** [buildSite] after the manifest has been awaited, and after the projects
    have. *)
Definition buildSite_return (_ : Value) : Async := Return Cache.

Definition buildSite_manifest (_ : list Value) : Async :=
  Await writeSiteManifest buildSite_return.

Definition buildSite (session : Session) (opts : Options) : Async :=
  (if force opts || clean opts then cleanBuiltFiles else fun k => k)
    (ensureBuildFoldersExist
       (let siteConfig := local_site_config session in
        Perform (LogDebug (MsgSiteConfig siteConfig))
          (match siteConfig with
           | None => Return Cache
           | Some config =>
               if (length (projects config) =? 0)%nat then Return Cache
               else AwaitAll (map buildProject (projects config)) buildSite_manifest
           end))).

(** *** The shapes of the runs

    What the events of a step are, and what the runs of [processFile], of the
    citation renderer, of a project and of the site look like. *)

(** The events by which an external promise settles. *)
Definition settles (e : Event) : bool :=
  match e with
  | EvFulfilled _ _ | EvRejected _ _ => true
  | _ => false
  end.

(** A call of [processFile]: pending or settled. *)
Inductive page_run : Run -> Prop :=
| page_pending siteProject page : page_run (RExt (ProcessFile siteProject page))
| page_settled c : page_run (RDone c).

(** The call of [getCitationRenderer] of a project: pending or settled. *)
Inductive citation_run (siteProject : SiteProject) : Run -> Prop :=
| citation_pending :
    citation_run siteProject (RExt (GetCitationRenderer (path siteProject)))
| citation_settled c : citation_run siteProject (RDone c).

(** A call of [buildProject]: at its first [await], at its [Promise.all], or
    settled. *)
Inductive project_run : Run -> Prop :=
| project_awaits_citations siteProject project c :
    citation_run siteProject c ->
    project_run (RWait c (buildProject_pages siteProject project))
| project_awaits_pages siteProject rs :
    Forall page_run rs ->
    project_run (RWaitAll rs (buildProject_report siteProject))
| project_settled c : project_run (RDone c).

Definition writes_manifest (e : Event) : bool :=
  match e with EvEffect WriteConfigJson => true | _ => false end.

Definition calls_processFile (e : Event) : bool :=
  match e with EvCall (ProcessFile _ _) => true | _ => false end.

(** How many calls of asynchronous methods a trace has, and how many of
    them have settled. *)
Definition is_call (e : Event) : bool :=
  match e with EvCall _ => true | _ => false end.

Definition calls_made (events : list Event) : nat :=
  length (List.filter is_call events).

Definition calls_settled (events : list Event) : nat :=
  length (List.filter settles events).

(** The two effects of [writeSiteManifest]. *)
Definition manifest_effects : list Event :=
  [EvEffect (LogInfo MsgWritingSiteConfig); EvEffect WriteConfigJson].

(** The citation renderer of the project has been fulfilled. *)
Definition citations_loaded (siteProject : SiteProject) (events : list Event) : Prop :=
  exists v, In (EvFulfilled (GetCitationRenderer (path siteProject)) v) events.

(** What holds of every configuration of a call of [buildProject]. *)
Definition project_state (siteProject : SiteProject) (c : Config) : Prop :=
  Forall page_run (orphans c)
  /\ ((exists project cr,
         main c = RWait cr (buildProject_pages siteProject project)
         /\ citation_run siteProject cr
         /\ forall v, cr = RDone (Normal v) ->
              In (EvFulfilled (GetCitationRenderer (path siteProject)) v) (trace c))
      \/ (exists rs,
            main c = RWaitAll rs (buildProject_report siteProject)
            /\ Forall page_run rs)
      \/ (exists x, main c = RDone x)).

(** What [buildSite] does before it looks at the projects. *)
Definition buildSite_prefix (session : Session) (opts : Options) : list Event :=
  (if force opts || clean opts
   then [EvEffect RmContent; EvEffect RmStatic; EvEffect (LogInfo MsgCleanBuildFiles)]
   else [])
  ++ [EvEffect (LogDebug MsgBuildFoldersCreated); EvEffect MkdirContent;
      EvEffect MkdirStatic;
      EvEffect (LogDebug (MsgSiteConfig (local_site_config session)))].

(** [!siteConfig?.projects.length] *)
Definition no_projects (session : Session) : Prop :=
  match local_site_config session with
  | None => True
  | Some config => projects config = []
  end.

(** The runs that the call [buildProject(cache, siteProject)] can turn into. *)
Definition project_run_of (siteProject : SiteProject) (r : Run) : Prop :=
  run_of (fst (start (buildProject siteProject))) r.

(** What holds of every configuration of a call of [buildSite]: it awaits
    the projects, or it awaits the manifest it has just written, or it has
    settled.  While it awaits the projects, a run is left behind only by a
    project that was rejected. *)
Definition site_state (config : SiteConfig) (c : Config) : Prop :=
  Forall (fun o => project_run o \/ page_run o) (orphans c)
  /\ ((exists rs,
         main c = RWaitAll rs buildSite_manifest
         /\ Forall2 project_run_of (projects config) rs
         /\ Forall project_run rs
         /\ (orphans c = [] \/ exists e, In (RDone (Thrown e)) rs))
      \/ main c = RWait (RDone (Normal Unit)) buildSite_return
      \/ (exists x, main c = RDone x)).

End Site.

End Build.

(** ** Typing of the option bag, and the rules as the specification words them *)

(** The values the source asserts with [as string | undefined]. *)
Definition string_or_nullish (v : JsVal) : bool :=
  match v with
  | VUndefined | VNull | VStr _ => true
  | _ => false
  end.

(** The options that [getCodeBlockOptions] calls string methods on have the
    type the source asserts for them. *)
Definition code_options_typed (data : DirectiveData) : bool :=
  string_or_nullish (opt (data_options data) "emphasize-lines")
  && string_or_nullish (opt (data_options data) "filename").


Definition supplied (v : JsVal) : bool :=
  match v with VUndefined => false | _ => true end.

Module Spec.


(** "discarded if its lowercase value equals false; if absent, a
    caller-supplied default filename is substituted; otherwise the raw value
    is used as-is" *)
Definition filename_rule (filename defaultFilename : JsVal) : JsVal :=
  match filename with
  | VStr s =>
      if String.eqb (JsString.toLowerCase s) "false" then VUndefined else filename
  | VUndefined => if supplied defaultFilename then defaultFilename else filename
  | _ => filename
  end.

(** The same with "absent" read as absent or empty, and a default that is
    not empty. *)
Definition filename_rule_falsy (filename defaultFilename : JsVal) : JsVal :=
  match filename with
  | VStr s =>
      if String.eqb (JsString.toLowerCase s) "false" then VUndefined
      else if JsString.is_empty s && Js.truthy defaultFilename then defaultFilename
      else filename
  | _ => if Js.truthy defaultFilename then defaultFilename else filename
  end.

(** "language from argument or falling back to an ambient default" *)
Definition language_rule (arg : JsVal) (ambient : string) : JsVal :=
  match arg with
  | VStr lang => VStr lang
  | _ => VStr ambient
  end.

(** "a miss emits a diagnostic warning identifying the unresolved character
    and still attempts to emit the (non-existent) composed value", into the
    open paragraph: the calls on the translator. *)
Definition accent_miss (value : string) (node : JsVal) : list Tex.Call :=
  [ Tex.CallOpenParagraph;
    Tex.CallWarn ("Unknown character " ++ value)%string node "tex-to-myst:characters";
    Tex.CallText VUndefined false ].

(** "list of strings: trim/drop-empty each, return non-empty result or
    undefined if all empty" *)
Definition tags_of_string_list (tags : list string) : JsVal :=
  match trim_and_drop_empty tags with
  | [] => VUndefined
  | kept => VArr (map VStr kept)
  end.

End Spec.

(** ** A concrete environment, for running the model *)

Module Sample.

Definition StringToNumber (_ : string) : JsNumber := NaN.
Definition ObjectToNumber (_ : JsVal) : JsNumber := NaN.
Definition select (_ : string) (_ : JsVal) : JsVal := VNull.
Definition normalizeLabel (label : JsVal) : option NormalizedLabel :=
  if Js.truthy label
  then Some {| nl_label := label; nl_identifier := label |}
  else None.
(** Only the one document of the examples is known to this loader. *)
Definition yaml_load (s : string) : Completion JsVal :=
  if String.eqb s "[a,b]" then Normal (VArr [VStr "a"; VStr "b"])
  else Thrown (YAMLException "unexpected input").
Fixpoint nanoid_nth (n : nat) : string :=
  match n with
  | O => "id"
  | S n' => String "x" (nanoid_nth n')
  end.

Definition world : World := {| messages := []; ids_drawn := 0 |}.

Definition directive (arg : JsVal) (options : list (string * JsVal)) : DirectiveData :=
  {| data_arg := arg;
     data_options := Some (list_to_map options);
     data_body := VStr "print(1)";
     data_node := VObj [("type", VStr "mystDirective")] |}.

Definition group_text (node : JsVal) : string :=
  match node with VStr s => s | _ => EmptyString end.

(** The table of the acute accent. *)
Definition acute : Tex.ObjectLiteral string := [("o", "ó"); ("O", "Ó")].

Definition five : JsVal := VNum (Fin 5).
Definition three : JsVal := VNum (Fin 3).

(** [{ "lineno-start": 5, "number-lines": 3 }] *)
Definition both_linenos : DirectiveData :=
  directive VUndefined [("lineno-start", five); ("number-lines", three)].


(** [{ "lineno-match": true, "lineno-start": 5 }] *)
Definition match_and_start : DirectiveData :=
  directive VUndefined [("lineno-match", VBool true); ("lineno-start", five)].

(** [{ filename: "FALSE" }], [{ filename: "" }] and [{}] *)
Definition filename_FALSE : DirectiveData :=
  directive VUndefined [("filename", VStr "FALSE")].
Definition filename_empty : DirectiveData :=
  directive VUndefined [("filename", VStr EmptyString)].
Definition no_options : DirectiveData := directive VUndefined [].

Definition no_code_options : CodeBlockOptions :=
  {| emphasizeLines := VUndefined; showLineNumbers := VUndefined;
     startingLineNumber := VUndefined; filename := VUndefined |}.

(** A code block in python with a label and a caption, and the same without
    the caption. *)
Definition caption_nodes : JsVal :=
  VArr [ VObj [("type", VStr "text"); ("value", VStr "A listing")] ].
Definition captioned : DirectiveData :=
  directive (VStr "python") [("label", VStr "lst"); ("caption", caption_nodes)].
Definition uncaptioned : DirectiveData :=
  directive (VStr "python") [("label", VStr "lst")].

(** A code cell without a language, whose tags are one blank string. *)
Definition cell_blank_tags : DirectiveData :=
  directive VUndefined [("tags", VArr [VStr " "])].

End Sample.

(** A site with one project, whose table of contents has the index page and
    one entry without a slug; and two executions: of [buildProject] up to the
    call of [processFile], and of [buildSite] up to the manifest. *)
Module SampleSite.

Import Build.

Definition docs : SiteProject := {| path := "docs"; slug := "docs" |}.

Definition docs_project : Project :=
  {| project_file := "docs/index.md";
     project_index := "index";
     project_pages := [OtherEntry "Part One"] |}.

Definition index_page : ProjectPage := LocalProjectPage "docs/index.md" "index".

Definition loadProjectConfigFromDisk (_ : string) : Completion Project :=
  Normal docs_project.

Definition site : SiteConfig := {| projects := [docs] |}.
Definition session : Session := {| local_site_config := Some site |}.
Definition empty_session : Session :=
  {| local_site_config := Some {| projects := [] |} |}.
Definition opts : Options := {| force := false; clean := true |}.

(** The configuration after a step of the main run. *)
Definition after (c : Config) (es : list Event) (r' : Run) : Config :=
  {| main := r'; orphans := orphans c ++ []; trace := trace c ++ es |}.

Definition citations : ExtOp := GetCitationRenderer "docs".
Definition index_file : ExtOp := ProcessFile docs index_page.
Definition pages_of_docs : Value -> Async := buildProject_pages docs docs_project.

Definition project0 : Config := initial (buildProject loadProjectConfigFromDisk docs).
Definition project1 : Config :=
  after project0 [EvFulfilled citations Renderer]
    (RWait (fulfilled Renderer) pages_of_docs).
Definition project2 : Config :=
  after project1 [EvCall index_file]
    (RWaitAll [RExt index_file] (buildProject_report docs)).

Definition site0 : Config := initial (buildSite loadProjectConfigFromDisk session opts).
Definition site1 : Config :=
  after site0 [EvFulfilled citations Renderer]
    (RWaitAll [RWait (fulfilled Renderer) pages_of_docs] buildSite_manifest).
Definition site2 : Config :=
  after site1 [EvCall index_file]
    (RWaitAll [RWaitAll [RExt index_file] (buildProject_report docs)]
       buildSite_manifest).
Definition site3 : Config :=
  after site2 [EvFulfilled index_file (PageResults [true])]
    (RWaitAll [RWaitAll [fulfilled (PageResults [true])] (buildProject_report docs)]
       buildSite_manifest).
Definition site4 : Config :=
  after site3 [EvEffect (LogInfo (MsgBuilt 1 1 "docs"))]
    (RWaitAll [fulfilled (Built [PageResults [true]] 1)] buildSite_manifest).
Definition site5 : Config :=
  after site4 manifest_effects (RWait (fulfilled Unit) buildSite_return).

End SampleSite.

(** ** Further vocabulary for the directives *)

(** A line-number option that is absent or a number other than NaN. *)
Definition number_or_nullish (v : JsVal) : bool :=
  match v with
  | VUndefined | VNull => true
  | VNum NaN => false
  | VNum _ => true
  | _ => false
  end.

(** The values on which [parseEmphasizeLines] does not call [split] on
    something that has no such method. *)
Definition string_or_falsy (v : JsVal) : bool :=
  Js.is_string v || negb (Js.truthy v).

(** A tag as [parseTags] returns it: not empty and without white space at
    either end. *)
Definition clean_tag (t : string) : Prop :=
  JsString.is_empty t = false /\ JsString.trim t = t.

(** A string that does not begin with white space. *)
Definition starts_black (s : string) : bool :=
  (JsString.space_width s =? 0)%nat.

(** A string without a comma and without white space: [/[,\s]/] matches
    nowhere in it. *)
Fixpoint separator_free (s : string) : bool :=
  match s with
  | EmptyString => true
  | String _ s' => (tag_separator s =? 0)%nat && separator_free s'
  end.

(** [tags.join(',')] *)
Fixpoint join_comma (tags : list string) : string :=
  match tags with
  | [] => EmptyString
  | [t] => t
  | t :: rest => t ++ String "," (join_comma rest)
  end.

(** The option bag without its "caption". *)
Definition without_caption (data : DirectiveData) : DirectiveData :=
  {| data_arg := data_arg data;
     data_options := option_map (delete "caption") (data_options data);
     data_body := data_body data;
     data_node := data_node data |}.

(** The id of the [Output] node of a block. *)
Definition output_id (nodes : list Node) : option string :=
  match nodes with
  | [ NBlock _ _ [ _; NOutput id _ ] _ _ ] => Some id
  | _ => None
  end.

(** The [tags] field of the data of a block. *)
Definition block_tags (nodes : list Node) : option JsVal :=
  match nodes with
  | [ NBlock _ _ _ _ tags ] => tags
  | _ => None
  end.

(** The same of a completion. *)
Definition block_tags_of (result : Completion (list Node)) : option JsVal :=
  match result with
  | Normal nodes => block_tags nodes
  | Thrown _ => None
  end.

(** Both line-number options are present. *)
Definition both_present (data : DirectiveData) : bool :=
  negb (Js.nullish (opt (data_options data) "lineno-start"))
  && negb (Js.nullish (opt (data_options data) "number-lines")).

(** What a call of [parseTags] on a file in state [w] can come to:
    [undefined] with at most one diagnostic, or clean tags without any. *)
Definition tags_outcome (select : string -> JsVal -> JsVal) (node : JsVal)
    (w : World) (result : Completion JsVal * World) : Prop :=
  exists ms,
    snd result = with_messages w ms
    /\ ((fst result = Normal VUndefined
         /\ (ms = [] \/ ms = [tags_load_error select node]
             \/ ms = [tags_not_strings_warning select node]))
        \/ (ms = []
            /\ exists tags,
                 fst result = Normal (VArr (map VStr tags))
                 /\ Forall clean_tag tags)).

(** ** Further vocabulary for the site build *)

Module BuildTrace.

Import Build.

(** The pages that [buildProject] hands to [processFile]: the index page,
    then the pages of the project that have a slug. *)
Definition built_pages (project : Project) : list ProjectPage :=
  LocalProjectPage (project_file project) (project_index project)
  :: List.filter has_slug (project_pages project).

(** The calls of [processFile] in a trace, in order. *)
Definition processFile_calls (events : list Event) : list (SiteProject * ProjectPage) :=
  flat_map
    (fun e => match e with
              | EvCall (ProcessFile siteProject page) => [(siteProject, page)]
              | _ => []
              end) events.

(** [pages.flat().length] *)
Definition total_reported (pages : list Value) : nat :=
  length (flat_map processed_of pages).

(** How often a trace writes the manifest. *)
Definition manifest_writes (events : list Event) : nat :=
  length (List.filter writes_manifest events).

(** The two calls of [fs.rmSync]. *)
Definition removes (e : Event) : bool :=
  match e with
  | EvEffect RmContent | EvEffect RmStatic => true
  | _ => false
  end.

(** What a step of a project can emit: an external call or its settling,
    or the report of the pages. *)
Definition project_event (e : Event) : bool :=
  match e with
  | EvEffect (LogInfo (MsgBuilt _ _ _))
  | EvEffect (LogInfo (MsgLoadedFromCache _ _)) => true
  | EvEffect _ => false
  | _ => true
  end.

(** What a step of [buildSite] can emit after its first turn: an event of a
    project, or the two effects of [writeSiteManifest]. *)
Definition site_event (e : Event) : bool :=
  project_event e
  || match e with
     | EvEffect (LogInfo MsgWritingSiteConfig) | EvEffect WriteConfigJson => true
     | _ => false
     end.

(** The projects of the site, none when there is no configuration. *)
Definition configured_projects (session : Session) : list SiteProject :=
  match local_site_config session with
  | Some config => projects config
  | None => []
  end.

(** The promise of one page inside [Promise.all]: pending, fulfilled with a
    value whose fulfilment is in the trace, or rejected. *)
Definition page_slot (siteProject : SiteProject) (events : list Event)
    (page : ProjectPage) (r : Run) : Prop :=
  r = RExt (ProcessFile siteProject page)
  \/ (exists v, r = fulfilled v
                /\ In (EvFulfilled (ProcessFile siteProject page) v) events)
  \/ (exists e, r = RDone (Thrown e)).

(** How far a call of [buildProject] has come. *)
Definition project_progress (siteProject : SiteProject) (project : Project)
    (c : Config) : Prop :=
  (exists cr,
     main c = RWait cr (buildProject_pages siteProject project)
     /\ citation_run siteProject cr
     /\ processFile_calls (trace c) = [])
  \/ (exists rs,
        main c = RWaitAll rs (buildProject_report siteProject)
        /\ Forall2 (page_slot siteProject (trace c)) (built_pages project) rs
        /\ processFile_calls (trace c)
           = map (pair siteProject) (built_pages project))
  \/ (exists e,
        main c = RDone (Thrown e)
        /\ (processFile_calls (trace c) = []
            \/ processFile_calls (trace c)
               = map (pair siteProject) (built_pages project)))
  \/ (exists vs,
        main c = fulfilled (Built vs (count_touched vs))
        /\ Forall2 (fun page v =>
                      In (EvFulfilled (ProcessFile siteProject page) v) (trace c))
             (built_pages project) vs
        /\ processFile_calls (trace c)
           = map (pair siteProject) (built_pages project)).

(** How often the two directories of the build output have been removed. *)
Definition removals (events : list Event) : nat :=
  length (List.filter removes events).

(** The manifest has been written as often as the state of [buildSite]
    says: not yet while it awaits the projects, once afterwards, never when
    it was rejected or had no project. *)
Definition written_as_expected (session : Session) (c : Config) : Prop :=
  match main c with
  | RWaitAll _ _ =>
      manifest_writes (trace c) = 0 /\ configured_projects session <> []
  | RWait _ _ =>
      manifest_writes (trace c) = 1 /\ configured_projects session <> []
  | RDone (Normal v) =>
      v = Cache
      /\ manifest_writes (trace c)
         = (if (length (configured_projects session) =? 0)%nat then 0 else 1)
  | RDone (Thrown _) => manifest_writes (trace c) = 0
  | RExt _ => False
  end.

End BuildTrace.

(** ** [watchContent] *)

Module Watch.

Import Build.

(** A call of [fs.watch]: the path and the [recursive] option.  The
    listener of every watcher is [processor()]. *)
Record Watcher : Type := {
  watched : string;
  recursive : bool
}.

Section Watching.

Variable loadProjectConfigFromDisk : string -> Completion Project.

(** [CURVENOTE_YML], from the newconfig module. *)
Variable CURVENOTE_YML : string.

(** The listener after the build has been awaited. *)
Definition processor_return (_ : Value) : Async := Return Unit.

(** [processor()], the listener, called with an event: the options of the
    build it awaits are [{}], so neither [force] nor [clean] is set. *)
Definition processor (session : Session) (eventType filename : string) : Async :=
  if String.prefix "_build" filename then Return Unit
  else
    Perform (LogDebug (MsgFileModified filename eventType))
      (Perform (LogDebug MsgRebuildingEverything)
         (Await (buildSite loadProjectConfigFromDisk session
                   {| force := false; clean := false |})
            processor_return)).

(** The watchers that [watchContent] registers. *)
Definition watchContent (session : Session) : list Watcher :=
  match local_site_config session with
  | None => []
  | Some siteConfig =>
      map (fun proj => {| watched := path proj; recursive := true |})
        (projects siteConfig)
      ++ [ {| watched := CURVENOTE_YML; recursive := false |} ]
  end.

End Watching.

End Watch.

(** ** Further sample data *)

Module SampleMore.

Import Build SampleSite.

(** A cell in python with two tags, and a second cell. *)
Definition tagged_cell : DirectiveData :=
  Sample.directive (VStr "python") [("tags", VStr "remove-input, hide-cell")].
Definition plain_cell : DirectiveData := Sample.directive (VStr "python") [].

(** What [getCodeBlockOptions] returns for [Sample.both_linenos]. *)
Definition both_linenos_result : CodeBlockOptions :=
  {| emphasizeLines := VUndefined; showLineNumbers := VBool true;
     startingLineNumber := Sample.three; filename := VUndefined |}.

Definition two_tags : list string := ["remove-input"; "hide-cell"].

(** A loader that finds no configuration. *)
Definition missing_project (_ : string) : Completion Project :=
  Thrown (YAMLException "no project configuration").

(** The execution of [buildProject] of [SampleSite], continued until the
    project is built. *)
Definition project3 : Config :=
  after project2 [EvFulfilled index_file (PageResults [true])]
    (RWaitAll [fulfilled (PageResults [true])] (buildProject_report docs)).
Definition project4 : Config :=
  after project3 [EvEffect (LogInfo (MsgBuilt 1 1 "docs"))]
    (fulfilled (Built [PageResults [true]] 1)).

End SampleMore.

(** * Properties *)

(** ** [getCodeBlockOptions] *)

Section CodeBlockOptionFacts.

Variable StringToNumber : string -> JsNumber.
Variable ObjectToNumber : JsVal -> JsNumber.
Variable select : string -> JsVal -> JsVal.

Local Abbreviation run_options := (getCodeBlockOptions StringToNumber ObjectToNumber select).
Local Abbreviation to_number := (ToNumber StringToNumber ObjectToNumber).
Local Abbreviation is_gt_one := (gt_one StringToNumber ObjectToNumber).
Local Abbreviation is_le_one := (le_one StringToNumber ObjectToNumber).

Lemma with_no_messages w : with_messages w [] = w.
Proof. destruct w as [ms n]. unfold with_messages. simpl. by rewrite app_nil_r. Qed.

Lemma gt_one_not_le_one v : is_gt_one v = true -> is_le_one v = false.
Proof.
  unfold gt_one, le_one. destruct (to_number v) as [| | |q]; simpl; try done.
  by intros ->%negb_true_iff.
Qed.

(** On a typed option bag [parseEmphasizeLines] returns and leaves the file
    alone. *)
Lemma parseEmphasizeLines_typed v w :
  string_or_nullish v = true ->
  exists lines, parseEmphasizeLines StringToNumber v w = (Normal lines, w).
Proof.
  intros Hv. unfold parseEmphasizeLines.
  destruct v as [| | | |s| | |]; try discriminate Hv; simpl; eauto.
  destruct (JsString.is_empty s); simpl; eauto.
Qed.

Lemma filename_toLowerCase_typed v w :
  string_or_nullish v = true ->
  filename_toLowerCase v w =
    (Normal (match v with VStr s => VStr (JsString.toLowerCase s) | _ => VUndefined end), w).
Proof. destruct v; try discriminate; reflexivity. Qed.

(** The shape of every result on a typed option bag: the warning is the only
    thing that can reach the file, and the four fields are the source's
    expressions. *)
Lemma getCodeBlockOptions_typed data defaultFilename w :
  code_options_typed data = true ->
  exists lines,
    run_options data defaultFilename w =
      (Normal
         {| emphasizeLines := lines;
            showLineNumbers :=
              if Js.truthy (opt (data_options data) "linenos")
                 || Js.truthy (opt (data_options data) "lineno-start")
                 || Js.truthy (opt (data_options data) "lineno-match")
                 || Js.truthy (opt (data_options data) "number-lines")
              then VBool true else VUndefined;
            startingLineNumber :=
              (let chosen :=
                 if negb (Js.nullish (opt (data_options data) "number-lines"))
                    && is_gt_one (opt (data_options data) "number-lines")
                 then opt (data_options data) "number-lines"
                 else opt (data_options data) "lineno-start" in
               if Js.truthy (opt (data_options data) "lineno-match") then VStr "match"
               else if Js.nullish chosen || is_le_one chosen then VUndefined
                    else chosen);
            filename := Spec.filename_rule_falsy (opt (data_options data) "filename")
                          defaultFilename |},
       with_messages w
         (if negb (Js.nullish (opt (data_options data) "lineno-start"))
             && negb (Js.nullish (opt (data_options data) "number-lines"))
          then [both_linenos_warning select data] else [])).
Proof.
  intros [Hlines Hname]%andb_true_iff.
  unfold getCodeBlockOptions.
  set (both := negb (Js.nullish (opt (data_options data) "lineno-start"))
               && negb (Js.nullish (opt (data_options data) "number-lines"))).
  set (w1 := with_messages w (if both then [both_linenos_warning select data] else [])).
  destruct (parseEmphasizeLines_typed _ w1 Hlines) as [lines Hrun].
  exists lines.
  unfold bind at 1.
  assert (Hwarn :
    (if both
     then fileWarn both_linenos_message
            {| opt_node := Js.coalesce (select (option_selector "number-lines")
                                          (data_node data)) (data_node data);
               opt_source := "code-block:options";
               opt_ruleId := directiveOptionsCorrect |}
     else ret tt) w = (Normal tt, w1)).
  { unfold w1. destruct both; simpl.
    - reflexivity.
    - unfold ret. by rewrite with_no_messages. }
  rewrite Hwarn. unfold bind at 1. rewrite Hrun.
  unfold bind. rewrite (filename_toLowerCase_typed _ _ Hname).
  unfold ret. f_equal. f_equal.
  unfold Spec.filename_rule_falsy, strict_eq_string.
  destruct (opt (data_options data) "filename") as [| | | |s| | |];
    try discriminate Hname; simpl; try reflexivity.
  destruct (String.eqb (JsString.toLowerCase s) "false"); [reflexivity|].
  destruct s; reflexivity.
Qed.


(** C4: when "lineno-match" is truthy the starting line number is the string
    "match", whatever "lineno-start" and "number-lines" hold. *)
Theorem getCodeBlockOptions_lineno_match data defaultFilename w :
  code_options_typed data = true ->
  Js.truthy (opt (data_options data) "lineno-match") = true ->
  exists r w',
    run_options data defaultFilename w = (Normal r, w')
    /\ startingLineNumber r = VStr "match".
Proof.
  intros Htyped Hmatch.
  destruct (getCodeBlockOptions_typed data defaultFilename w Htyped) as [lines Hrun].
  do 2 eexists. split; [exact Hrun|].
  simpl. by rewrite Hmatch.
Qed.

(** C7 (as amended): the resolved filename is [undefined] when the lowercase
    of the "filename" option is "false", whatever the default; it is the
    default when the option is absent or empty and the default is a
    non-empty string; in every other case it is the raw option value. *)
Theorem getCodeBlockOptions_filename data defaultFilename w :
  code_options_typed data = true ->
  exists r w',
    run_options data defaultFilename w = (Normal r, w')
    /\ (forall s, opt (data_options data) "filename" = VStr s ->
         JsString.toLowerCase s = "false" -> filename r = VUndefined)
    /\ (Js.truthy (opt (data_options data) "filename") = false ->
         Js.truthy defaultFilename = true -> filename r = defaultFilename)
    /\ ((forall s, opt (data_options data) "filename" = VStr s ->
          JsString.toLowerCase s <> "false") ->
        Js.truthy (opt (data_options data) "filename") = true
        \/ Js.truthy defaultFilename = false ->
        filename r = opt (data_options data) "filename").
Proof.
  intros Htyped.
  destruct (getCodeBlockOptions_typed data defaultFilename w Htyped) as [lines Hrun].
  do 2 eexists. split; [exact Hrun|]. simpl.
  unfold Spec.filename_rule_falsy.
  apply andb_true_iff in Htyped as [_ Hname].
  destruct (opt (data_options data) "filename") as [| | | |s| | |];
    try discriminate Hname.
  - split; [intros s [=]|]. split.
    + by intros _ ->.
    + intros _ [Ht| ->]; [discriminate Ht|reflexivity].
  - split; [intros s [=]|]. split.
    + by intros _ ->.
    + intros _ [Ht| ->]; [discriminate Ht|reflexivity].
  - split; [|split].
    + intros s' [= <-] ->. reflexivity.
    + intros Hempty Hdef. simpl in Hempty. apply negb_false_iff in Hempty.
      destruct s; [|discriminate]. simpl. by rewrite Hdef.
    + intros Hne Hor.
      destruct (String.eqb_spec (JsString.toLowerCase s) "false") as [Heq|_].
      { by destruct (Hne s eq_refl). }
      destruct Hor as [Ht| ->].
      * simpl in Ht. apply negb_true_iff in Ht. by rewrite Ht.
      * by rewrite andb_false_r.
Qed.

End CodeBlockOptionFacts.

(** *** Runs of [getCodeBlockOptions] *)

Local Abbreviation sample_options :=
  (getCodeBlockOptions Sample.StringToNumber Sample.ObjectToNumber Sample.select).
Local Abbreviation sample_to_number :=
  (ToNumber Sample.StringToNumber Sample.ObjectToNumber).


(** The first coercion example of the specification: one warning, and the
    starting line number is 3. *)
Example both_linenos_example :
  sample_options Sample.both_linenos VUndefined Sample.world
  = (Normal {| emphasizeLines := VUndefined; showLineNumbers := VBool true;
               startingLineNumber := Sample.three; filename := VUndefined |},
     {| messages := [both_linenos_warning Sample.select Sample.both_linenos];
        ids_drawn := 0 |}).
Proof. reflexivity. Qed.


Lemma getCodeBlockOptions_lineno_match_witness :
  exists r w',
    sample_options Sample.match_and_start VUndefined Sample.world = (Normal r, w')
    /\ startingLineNumber r = VStr "match".
Proof. apply getCodeBlockOptions_lineno_match; reflexivity. Defined.

Lemma getCodeBlockOptions_filename_witness :
  exists r w',
    sample_options Sample.filename_FALSE (VStr "a.py") Sample.world = (Normal r, w')
    /\ (forall s, opt (data_options Sample.filename_FALSE) "filename" = VStr s ->
         JsString.toLowerCase s = "false" -> filename r = VUndefined)
    /\ (Js.truthy (opt (data_options Sample.filename_FALSE) "filename") = false ->
         Js.truthy (VStr "a.py") = true -> filename r = VStr "a.py")
    /\ ((forall s, opt (data_options Sample.filename_FALSE) "filename" = VStr s ->
          JsString.toLowerCase s <> "false") ->
        Js.truthy (opt (data_options Sample.filename_FALSE) "filename") = true
        \/ Js.truthy (VStr "a.py") = false ->
        filename r = opt (data_options Sample.filename_FALSE) "filename").
Proof. apply getCodeBlockOptions_filename; reflexivity. Defined.

(** The filename examples of the specification. *)
Example filename_FALSE_example :
  fst (sample_options Sample.filename_FALSE (VStr "a.py") Sample.world)
  = Normal {| emphasizeLines := VUndefined; showLineNumbers := VUndefined;
              startingLineNumber := VUndefined; filename := VUndefined |}.
Proof. reflexivity. Qed.

Example filename_absent_example :
  fst (sample_options Sample.no_options (VStr "a.py") Sample.world)
  = Normal {| emphasizeLines := VUndefined; showLineNumbers := VUndefined;
              startingLineNumber := VUndefined; filename := VStr "a.py" |}.
Proof. reflexivity. Qed.

(** C7 as stated fails on a "filename" option that is present and empty:
    the option is not absent, so the raw value, the empty string, would be
    used as it is; the code substitutes the default. *)
Lemma filename_empty_counterexample :
  opt (data_options Sample.filename_empty) "filename" = VStr EmptyString
  /\ exists r w',
       sample_options Sample.filename_empty (VStr "a.py") Sample.world = (Normal r, w')
       /\ filename r = VStr "a.py"
       /\ Spec.filename_rule (VStr EmptyString) (VStr "a.py") = VStr EmptyString
       /\ filename r <> Spec.filename_rule (VStr EmptyString) (VStr "a.py").
Proof.
  split; [reflexivity|].
  do 2 eexists. split; [reflexivity|].
  split; [reflexivity|]. split; [reflexivity|]. discriminate.
Qed.

(** ** [parseTags] *)

Lemma with_messages_app w ms1 ms2 :
  with_messages (with_messages w ms1) ms2 = with_messages w (ms1 ++ ms2).
Proof. unfold with_messages. simpl. by rewrite app_assoc. Qed.

Section TagFacts.

Variable select : string -> JsVal -> JsVal.
Variable yaml_load : string -> Completion JsVal.

Local Abbreviation parse := (parseTags select yaml_load).

(** [parseTags] always returns: whatever the recursive call throws is caught.
    It only appends to the messages of the file. *)
Lemma parseTags_returns depth :
  forall input node w,
    exists tags ms, parse depth input node w = (Normal tags, with_messages w ms).
Proof.
  induction depth as [|depth IH]; intros input node w.
  all: destruct input as [| |b|n|s|l|o|f]; simpl.
  all: try (exists VUndefined, []; by rewrite with_no_messages).
  all: try (destruct b; exists VUndefined, []; by rewrite with_no_messages).
  all: try (destruct (Js.num_truthy n); exists VUndefined, [];
            by rewrite with_no_messages).
  all: try (destruct (forallb Js.is_string l);
            [ destruct (0 <? length l)%nat; eexists _, [];
              by rewrite with_no_messages
            | exists VUndefined, [tags_not_strings_warning select node]; reflexivity ]).
  - destruct (JsString.is_empty s); simpl;
      [exists VUndefined, []; by rewrite with_no_messages|].
    destruct (is_bracketed s).
    + exists VUndefined, [tags_load_error select node]. reflexivity.
    + eexists _, []. by rewrite with_no_messages.
  - destruct (JsString.is_empty s); simpl;
      [exists VUndefined, []; by rewrite with_no_messages|].
    destruct (is_bracketed s).
    + unfold try_catch. destruct (yaml_load s) as [loaded|e].
      * destruct (IH loaded node w) as (tags & ms & ->). eauto.
      * exists VUndefined, [tags_load_error select node]. reflexivity.
    + eexists _, []. by rewrite with_no_messages.
Qed.

(** Rule 1: a falsy input gives [undefined]. *)
Lemma parseTags_falsy depth input node w :
  Js.truthy input = false -> parse depth input node w = (Normal VUndefined, w).
Proof. intros H. destruct depth; destruct input; simpl in *; by rewrite ?H. Qed.

(** Rule 2: a bracketed string is loaded as YAML and the result parsed
    again; a load that throws leaves one error and gives [undefined]. *)
Lemma parseTags_bracketed_loaded depth s loaded node w :
  is_bracketed s = true -> yaml_load s = Normal loaded ->
  parse (S depth) (VStr s) node w = parse depth loaded node w.
Proof.
  intros Hb Hload. simpl.
  assert (JsString.is_empty s = false) as -> by (destruct s; [discriminate Hb|done]).
  simpl. rewrite Hb, Hload. unfold try_catch.
  by destruct (parseTags_returns depth loaded node w) as (tags & ms & ->).
Qed.

Lemma parseTags_bracketed_failure depth s e node w :
  is_bracketed s = true -> yaml_load s = Thrown e ->
  parse (S depth) (VStr s) node w
  = (Normal VUndefined, with_messages w [tags_load_error select node]).
Proof.
  intros Hb Hload. simpl.
  assert (JsString.is_empty s = false) as -> by (destruct s; [discriminate Hb|done]).
  simpl. by rewrite Hb, Hload.
Qed.

(** Rule 3: any other string is split on commas and white space. *)
Lemma parseTags_plain_string depth s node w :
  is_bracketed s = false ->
  parse depth (VStr s) node w
  = (Normal (match trim_and_drop_empty (JsString.split_regex tag_separator s) with
             | [] => VUndefined
             | tags => VArr (map VStr tags)
             end), w).
Proof.
  intros Hb. destruct depth; simpl; rewrite Hb.
  all: destruct s as [|c s]; [reflexivity|]; simpl negb; cbv iota.
  all: by destruct (trim_and_drop_empty (JsString.split_regex tag_separator (String c s))).
Qed.

(** Rule 4: neither a string nor an array. *)
Lemma parseTags_other depth input node w :
  Js.is_string input = false -> Js.isArray input = false ->
  parse depth input node w = (Normal VUndefined, w).
Proof.
  intros Hs Ha.
  destruct depth; destruct input as [| |b|n| | | |]; try discriminate; simpl;
    try reflexivity.
  all: try by destruct b.
  all: by destruct (Js.num_truthy n).
Qed.

Lemma strings_of_VStr (tags : list string) : strings_of (map VStr tags) = tags.
Proof. induction tags as [|t tags IH]; simpl; by rewrite ?IH. Qed.

Lemma forallb_is_string_VStr (tags : list string) :
  forallb Js.is_string (map VStr tags) = true.
Proof. by induction tags. Qed.

(** Rule 5, as the code has it: an array of strings that is not empty gives
    the trimmed, non-empty ones, even when none is left. *)
Lemma parseTags_string_list depth (tags : list string) node w :
  tags <> [] ->
  parse depth (VArr (map VStr tags)) node w
  = (Normal (VArr (map VStr (trim_and_drop_empty tags))), w).
Proof.
  intros Hne. destruct depth; simpl.
  all: rewrite forallb_is_string_VStr, strings_of_VStr.
  all: by destruct tags.
Qed.

(** Rule 6: an array with an element that is not a string leaves one warning
    and gives [undefined]. *)
Lemma parseTags_mixed_list depth l node w :
  forallb Js.is_string l = false ->
  parse depth (VArr l) node w
  = (Normal VUndefined, with_messages w [tags_not_strings_warning select node]).
Proof. intros H. destruct depth; simpl; by rewrite H. Qed.

(** C2, the failing input: an array holding one blank string.  Every element
    is empty after trimming, so rule 5 of the specification gives
    [undefined]; the code tests the length of the array before it filters
    and returns the empty array. *)
Theorem parseTags_blank_string_list depth node w :
  parse depth (VArr [VStr " "]) node w = (Normal (VArr []), w)
  /\ Spec.tags_of_string_list [" "] = VUndefined.
Proof. split; [by destruct depth|reflexivity]. Qed.

End TagFacts.

(** The tag examples of the specification. *)
Example parseTags_two_tags :
  parseTags Sample.select Sample.yaml_load 1 (VStr "remove-input, hide-cell")
    VNull Sample.world
  = (Normal (VArr [VStr "remove-input"; VStr "hide-cell"]), Sample.world).
Proof. reflexivity. Qed.

Example parseTags_bracketed :
  parseTags Sample.select Sample.yaml_load 1 (VStr "[a,b]") VNull Sample.world
  = (Normal (VArr [VStr "a"; VStr "b"]), Sample.world).
Proof. reflexivity. Qed.

Example parseTags_number :
  parseTags Sample.select Sample.yaml_load 1 (VNum (Fin 42)) VNull Sample.world
  = (Normal VUndefined, Sample.world).
Proof. reflexivity. Qed.

Example parseTags_string_and_number :
  parseTags Sample.select Sample.yaml_load 1 (VArr [VStr "x"; Sample.three])
    VNull Sample.world
  = (Normal VUndefined,
     with_messages Sample.world [tags_not_strings_warning Sample.select VNull]).
Proof. reflexivity. Qed.

(** White space outside Basic Latin: the no-break space separates tags and
    is trimmed like a blank, and so is the ideographic space; a letter
    whose encoding ends in the byte 160 is left alone. *)
Example trim_nbsp :
  JsString.trim (JsString.nbsp ++ "x" ++ JsString.nbsp)%string = "x".
Proof. reflexivity. Qed.

Example trim_ideographic_space :
  JsString.trim ("x" ++ String (ascii_of_nat 227)
                          (String (ascii_of_nat 128)
                             (String (ascii_of_nat 128) EmptyString)))%string
  = "x".
Proof. reflexivity. Qed.

Example trim_a_grave : JsString.trim "voilà" = "voilà".
Proof. reflexivity. Qed.

Example parseTags_nbsp_separated :
  parseTags Sample.select Sample.yaml_load 1
    (VStr ("a" ++ JsString.nbsp ++ "b")%string) VNull Sample.world
  = (Normal (VArr [VStr "a"; VStr "b"]), Sample.world).
Proof. reflexivity. Qed.

Example parseTags_nbsp_list :
  parseTags Sample.select Sample.yaml_load 1
    (VArr [VStr (JsString.nbsp ++ "x")%string]) VNull Sample.world
  = (Normal (VArr [VStr "x"]), Sample.world).
Proof. reflexivity. Qed.

(** ** The two directives *)

Section DirectiveFacts.

Variable StringToNumber : string -> JsNumber.
Variable ObjectToNumber : JsVal -> JsNumber.
Variable select : string -> JsVal -> JsVal.
Variable normalizeLabel : JsVal -> option NormalizedLabel.

Local Abbreviation run_code :=
  (codeDirective_run StringToNumber ObjectToNumber select normalizeLabel).
Local Abbreviation label_for data :=
  (label_of (normalizeLabel (opt (data_options data) "label"))).
Local Abbreviation identifier_for data :=
  (identifier_of (normalizeLabel (opt (data_options data) "label"))).


End DirectiveFacts.

(** *** Runs of the directives *)

Local Abbreviation sample_code :=
  (codeDirective_run Sample.StringToNumber Sample.ObjectToNumber Sample.select
     Sample.normalizeLabel).
Local Abbreviation sample_cell :=
  (codeCellDirective_run Sample.select Sample.normalizeLabel Sample.yaml_load
     Sample.nanoid_nth).


Example codeDirective_with_caption :
  fst (sample_code Sample.captioned Sample.world)
  = Normal
      [ NContainer "code" (VStr "lst") (VStr "lst")
          [ NCode {| code_lang := VStr "python"; code_class := VUndefined;
                     code_opts := Some Sample.no_code_options; code_executable := None;
                     code_value := VStr "print(1)";
                     code_label := None; code_identifier := None |};
            NCaption [ NParagraph Sample.caption_nodes ] ] ].
Proof. reflexivity. Qed.

Example codeDirective_without_caption :
  fst (sample_code Sample.uncaptioned Sample.world)
  = Normal
      [ NCode {| code_lang := VStr "python"; code_class := VUndefined;
                 code_opts := Some Sample.no_code_options; code_executable := None;
                 code_value := VStr "print(1)";
                 code_label := Some (VStr "lst");
                 code_identifier := Some (VStr "lst") |} ].
Proof. reflexivity. Qed.

(** C5 as stated fails on a cell without an argument: the [Code] node has
    no language at all, where the claim has the argument or an ambient
    default.  The cell has no tags, and its block no [tags] field. *)
Lemma codeCellDirective_run_counterexample :
  exists label identifier code output w',
    sample_cell 1 Sample.no_options Sample.world
    = (Normal [ NBlock label identifier [ NCode code; output ] "notebook-code" None ],
       w')
    /\ data_arg Sample.no_options = VUndefined
    /\ code_lang code = VUndefined
    /\ ~ (exists ambient,
            code_lang code = Spec.language_rule (data_arg Sample.no_options) ambient).
Proof.
  do 5 eexists. split; [reflexivity|]. split; [reflexivity|].
  split; [reflexivity|]. intros [ambient H]. discriminate H.
Qed.

(** The cell of the failing input of C2: its block gets an empty [tags]
    array. *)
Example codeCellDirective_blank_tags :
  block_tags_of (fst (sample_cell 1 Sample.cell_blank_tags Sample.world))
  = Some (VArr []).
Proof. reflexivity. Qed.

(** ** The accent macros *)

Lemma get_own_Some_In {V} (o : Tex.ObjectLiteral V) key v :
  Tex.get_own o key = Some v -> In (key, v) o.
Proof.
  induction o as [|[k v'] o IH]; simpl; [discriminate|].
  destruct (Tex.get_own o key) as [later|].
  - intros [= <-]. right. by apply IH.
  - destruct (String.eqb_spec k key) as [->|_]; [|discriminate].
    intros [= <-]. by left.
Qed.

(** No entry of the accent tables is the empty string, so a hit is truthy. *)
Lemma accents_hit_truthy macro translate value converted :
  In (macro, translate) Tex.accents ->
  Tex.get_own translate value = Some converted ->
  Js.truthy (VStr converted) = true.
Proof.
  intros Hmacro Hget%get_own_Some_In.
  assert (Hall : forallb (fun entry : string * Tex.ObjectLiteral string =>
                   forallb (fun kv : string * string =>
                              negb (JsString.is_empty (snd kv))) (snd entry))
                   Tex.accents = true) by reflexivity.
  rewrite forallb_forall in Hall. specialize (Hall _ Hmacro). simpl in Hall.
  rewrite forallb_forall in Hall. exact (Hall _ Hget).
Qed.

(** Every accent macro is dispatched to [createText] with its own table: no
    symbol macro takes its place. *)
Lemma accent_handler macro translate :
  In (macro, translate) Tex.accents ->
  Tex.CHARACTER_HANDLERS !! ("macro_" ++ macro)%string
  = Some (Tex.AccentHandler translate).
Proof.
  unfold Tex.accents. intros Hin. simpl in Hin.
  repeat (destruct Hin as [[= <- <-]|Hin]; [vm_compute; reflexivity|]).
  destruct Hin.
Qed.

Section AccentFacts.

Context {State : Type} `{Tex.ITexParser State}.
Variable group_text : JsVal -> string.

(** What the handler of an accent macro does, by the three ways in which
    the lookup [translate[value]] can end: on a key that the table writes
    it opens the paragraph and calls [text] with the composed character; on
    a name that every object inherits it does the same with the inherited
    function, and does not warn; on anything else it opens the paragraph,
    warns and calls [text] with [undefined]. *)
Lemma createText_cases macro translate node (state : State) :
  In (macro, translate) Tex.accents ->
  Tex.run_handler group_text (Tex.AccentHandler translate) node state
  = match Tex.get_own translate (group_text node) with
    | Some converted => Tex.text (VStr converted) false (Tex.openParagraph state)
    | None =>
        if Tex.inherited (group_text node)
        then Tex.text (VBuiltin (group_text node)) false (Tex.openParagraph state)
        else Tex.text VUndefined false
               (Tex.warn ("Unknown character " ++ group_text node)%string node
                  "tex-to-myst:characters" (Tex.openParagraph state))
    end.
Proof.
  intros Hmacro. simpl. unfold Tex.createText, Tex.get.
  destruct (Tex.get_own translate (group_text node)) as [converted|] eqn:Hown.
  - by rewrite (accents_hit_truthy _ _ _ _ Hmacro Hown).
  - by destruct (Tex.inherited (group_text node)).
Qed.

End AccentFacts.

(** C6, the failing input: the acute accent on the text "constructor".  On
    "o", which the table of the macro writes, the handler opens the
    paragraph and calls [text] with the composed character; on "z", which
    it does not write, it opens the paragraph, warns about the unknown
    character and calls [text] with [undefined], as the claim has it.  The
    text "constructor" is not in the table either, so the claim has the
    same warning; the lookup finds the constructor that the table inherits,
    and the code calls [text] with it and does not warn. *)
Theorem createText_inherited_constructor :
  Tex.CHARACTER_HANDLERS !! "macro_'" = Some (Tex.AccentHandler Sample.acute)
  /\ Tex.run_handler Sample.group_text (Tex.AccentHandler Sample.acute) (VStr "o") []
     = [Tex.CallOpenParagraph; Tex.CallText (VStr "ó") false]
  /\ Tex.get_own Sample.acute "z" = None
  /\ Tex.run_handler Sample.group_text (Tex.AccentHandler Sample.acute) (VStr "z") []
     = Spec.accent_miss "z" (VStr "z")
  /\ Tex.get_own Sample.acute "constructor" = None
  /\ Tex.run_handler Sample.group_text (Tex.AccentHandler Sample.acute)
       (VStr "constructor") []
     = [Tex.CallOpenParagraph; Tex.CallText (VBuiltin "constructor") false]
  /\ Spec.accent_miss "constructor" (VStr "constructor")
     = [Tex.CallOpenParagraph;
        Tex.CallWarn "Unknown character constructor" (VStr "constructor")
          "tex-to-myst:characters";
        Tex.CallText VUndefined false].
Proof. split; [vm_compute; reflexivity|]. by repeat split. Qed.

(** The other names that the table inherits behave like the constructor. *)
Example acute_inherited_calls :
  Forall (fun name =>
            Tex.run_handler Sample.group_text (Tex.AccentHandler Sample.acute)
              (VStr name) []
            = [Tex.CallOpenParagraph; Tex.CallText (VBuiltin name) false])
    Tex.Object_prototype.
Proof. repeat constructor. Qed.

Example dag_calls :
  Tex.CHARACTER_HANDLERS !! "macro_dag" = Some (Tex.SymbolHandler "†")
  /\ Tex.run_handler Sample.group_text (Tex.SymbolHandler "†") VNull []
     = [Tex.CallOpenParagraph; Tex.CallText (VStr "†") false].
Proof. split; [vm_compute|]; reflexivity. Qed.

(** ** The site build *)

Module BuildFacts.

Import Build.

Section SiteFacts.

Variable loadProjectConfigFromDisk : string -> Completion Project.

Local Abbreviation build_project := (buildProject loadProjectConfigFromDisk).
Local Abbreviation build_site := (buildSite loadProjectConfigFromDisk).
Local Abbreviation site_inv := (site_state loadProjectConfigFromDisk).
Local Abbreviation run_of_project := (project_run_of loadProjectConfigFromDisk).

Ltac invert_step H := inversion H; subst; clear H.

Lemma done_no_step c es os r : ~ run_step (RDone c) es os r.
Proof. intros Hstep. inversion Hstep. Qed.

Lemma page_run_step r es os r' :
  page_run r -> run_step r es os r' ->
  page_run r' /\ os = [] /\ forallb settles es = true.
Proof.
  intros Hpage Hstep. destruct Hpage; inversion Hstep; subst.
  all: by repeat split; try constructor.
Qed.

Lemma citation_run_step siteProject r es os r' :
  citation_run siteProject r -> run_step r es os r' ->
  citation_run siteProject r' /\ os = [] /\ forallb settles es = true
  /\ forall v, r' = RDone (Normal v) ->
       es = [EvFulfilled (GetCitationRenderer (path siteProject)) v].
Proof.
  intros Hcit Hstep. destruct Hcit; inversion Hstep; subst.
  - repeat split; try constructor. by intros ? [= ->].
  - repeat split; try constructor. intros ? [=].
Qed.

(** What [buildProject] emits once the citations are there: the calls of
    [processFile], the index page first. *)
Lemma start_buildProject_pages siteProject project v :
  start (buildProject_pages siteProject project v)
  = (RWaitAll
       (map (fun page => RExt (ProcessFile siteProject page))
          (LocalProjectPage (project_file project) (project_index project)
           :: List.filter has_slug (project_pages project)))
       (buildProject_report siteProject),
     map (fun page => EvCall (ProcessFile siteProject page))
       (LocalProjectPage (project_file project) (project_index project)
        :: List.filter has_slug (project_pages project))).
Proof.
  unfold buildProject_pages. simpl. repeat f_equal.
  - induction (List.filter has_slug (project_pages project)) as [|p l IH];
      simpl; by rewrite ?IH.
  - induction (List.filter has_slug (project_pages project)) as [|p l IH];
      simpl; by rewrite ?IH.
Qed.

Lemma start_buildProject_report siteProject pages :
  exists message,
    start (buildProject_report siteProject pages)
    = (RDone (Normal (Built pages (count_touched pages))), [EvEffect (LogInfo message)]).
Proof. unfold buildProject_report. simpl. eauto. Qed.

Lemma start_buildProject siteProject :
  project_run (fst (start (build_project siteProject)))
  /\ forallb (fun e => match e with
                       | EvCall (GetCitationRenderer _) => true
                       | _ => false
                       end) (snd (start (build_project siteProject))) = true.
Proof.
  unfold buildProject.
  destruct (loadProjectConfigFromDisk (path siteProject)); simpl.
  - split; [|reflexivity]. apply project_awaits_citations. constructor.
  - split; [|reflexivity]. constructor.
Qed.

Lemma settles_not_writes es :
  forallb settles es = true -> existsb writes_manifest es = false.
Proof.
  induction es as [|e es IH]; [done|]. simpl.
  intros [He Hes]%andb_true_iff. rewrite (IH Hes). by destruct e.
Qed.

Lemma settles_not_calls es :
  forallb settles es = true -> existsb calls_processFile es = false.
Proof.
  induction es as [|e es IH]; [done|]. simpl.
  intros [He Hes]%andb_true_iff. rewrite (IH Hes). by destruct e.
Qed.

Lemma Forall_page_run_map siteProject pages :
  Forall page_run (map (fun page => RExt (ProcessFile siteProject page)) pages).
Proof. induction pages; constructor; [constructor|done]. Qed.

Lemma calls_not_writes siteProject pages :
  existsb writes_manifest
    (map (fun page => EvCall (ProcessFile siteProject page)) pages) = false.
Proof. by induction pages. Qed.

Lemma Forall_filter_pending {P : Run -> Prop} l :
  Forall P l -> Forall P (List.filter pending l).
Proof.
  induction 1 as [|r l Hr Hl IH]; simpl; [constructor|].
  destruct (pending r); [by constructor|done].
Qed.

(** A step of a project: it stays a project, what it leaves behind are runs
    of [processFile], and only a rejected project leaves anything behind.
    It never writes the manifest. *)
Lemma project_run_step r es os r' :
  project_run r -> run_step r es os r' ->
  project_run r'
  /\ Forall page_run os
  /\ (os = [] \/ exists e, r' = RDone (Thrown e))
  /\ existsb writes_manifest es = false.
Proof.
  intros Hproj Hstep. destruct Hproj as [sp project c Hc|sp rs Hrs|c].
  - invert_step Hstep.
    + match goal with Hs : run_step c _ _ _ |- _ =>
        destruct (citation_run_step _ _ _ _ _ Hc Hs) as (Hc' & -> & Hes & _) end.
      split; [by constructor|]. split; [constructor|]. split; [by left|].
      by apply settles_not_writes.
    + rewrite start_buildProject_pages. cbn [fst snd].
      split; [|split; [constructor|split; [by left|]]].
      * apply project_awaits_pages. apply Forall_page_run_map.
      * apply calls_not_writes.
    + split; [apply project_settled|]. split; [constructor|]. by split; [left|].
  - invert_step Hstep.
    + apply Forall_app in Hrs as [Hbefore Hafter].
      inversion Hafter as [|? ? Hc Hafter']; subst.
      match goal with Hs : run_step c _ _ _ |- _ =>
        destruct (page_run_step _ _ _ _ Hc Hs) as (Hc' & -> & Hes) end.
      split; [|split; [constructor|split; [by left|]]].
      * apply project_awaits_pages. apply Forall_app. split; [done|by constructor].
      * by apply settles_not_writes.
    + destruct (start_buildProject_report sp vs) as [message ->]. cbn [fst snd].
      split; [apply project_settled|]. split; [constructor|]. by split; [left|].
    + split; [apply project_settled|]. split; [|split; [right; eauto|done]].
      apply Forall_filter_pending. apply Forall_app in Hrs as [Hbefore Hafter].
      inversion Hafter; subst. apply Forall_app. by split.
  - by destruct (done_no_step _ _ _ _ Hstep).
Qed.

(** *** [buildProject]: the citations come first *)

Lemma project_state_initial siteProject :
  project_state siteProject (initial (build_project siteProject)).
Proof.
  split; [constructor|]. unfold initial, buildProject.
  destruct (loadProjectConfigFromDisk (path siteProject)) as [project|e]; simpl.
  - left. exists project, (RExt (GetCitationRenderer (path siteProject))).
    split; [done|]. split; [constructor|]. intros v [=].
  - right. right. eauto.
Qed.

Lemma orphan_page_step before o after es os o' :
  Forall page_run (before ++ o :: after) -> run_step o es os o' ->
  Forall page_run (before ++ o' :: after ++ os) /\ forallb settles es = true.
Proof.
  intros [Hbefore Hafter]%Forall_app Hstep.
  inversion Hafter as [|? ? Ho Hafter']; subst.
  destruct (page_run_step _ _ _ _ Ho Hstep) as (Ho' & -> & Hes).
  split; [|done]. rewrite app_nil_r. apply Forall_app. split; [done|by constructor].
Qed.

(** A step keeps the invariant, and it calls [processFile] only when the
    citations have been loaded. *)
Lemma project_state_step siteProject c es c' :
  project_state siteProject c -> config_step c es c' ->
  project_state siteProject c'
  /\ (existsb calls_processFile es = true ->
      citations_loaded siteProject (trace c)).
Proof.
  intros [Horphans Hmain] Hstep. invert_step Hstep.
  - match goal with Hs : run_step (main c) _ _ _ |- _ => rename Hs into Hrun end.
    destruct Hmain as [(project & cr & Hm & Hcr & Hloaded)|[(rs & Hm & Hrs)|[x Hm]]];
      rewrite Hm in Hrun.
    + invert_step Hrun.
      * match goal with Hs : run_step cr _ _ _ |- _ =>
          destruct (citation_run_step _ _ _ _ _ Hcr Hs) as (Hc' & -> & Hes & Hful) end.
        split.
        { split; [by rewrite app_nil_r|]. left. simpl. do 2 eexists.
          split; [reflexivity|]. split; [done|].
          intros v Hv. apply in_or_app. right. rewrite (Hful v Hv). by left. }
        by rewrite (settles_not_calls _ Hes).
      * rewrite start_buildProject_pages. cbn [fst snd]. split.
        { split; [by rewrite app_nil_r|]. right. left. cbn [main]. eexists.
          split; [reflexivity|]. apply Forall_page_run_map. }
        intros _. exists v. by apply Hloaded.
      * split; [|done]. split; [by rewrite app_nil_r|]. right. right. simpl. eauto.
    + invert_step Hrun.
      * apply Forall_app in Hrs as [Hbefore Hafter].
        inversion Hafter as [|? ? Hc0 Hafter']; subst.
        match goal with Hs : run_step _ _ _ _ |- _ =>
          destruct (page_run_step _ _ _ _ Hc0 Hs) as (Hc' & -> & Hes) end.
        split; [|by rewrite (settles_not_calls _ Hes)].
        split; [by rewrite app_nil_r|]. right. left. simpl. eexists.
        split; [reflexivity|]. apply Forall_app. split; [done|by constructor].
      * destruct (start_buildProject_report siteProject vs) as [message ->].
        cbn [fst snd]. split; [|done].
        split; [by rewrite app_nil_r|]. right. right. simpl. eauto.
      * split; [|done]. split.
        { simpl. apply Forall_app. split; [done|]. apply Forall_filter_pending.
          apply Forall_app in Hrs as [Hbefore Hafter]. inversion Hafter; subst.
          apply Forall_app. by split. }
        right. right. simpl. eauto.
    + by destruct (done_no_step _ _ _ _ Hrun).
  - match goal with Ho : orphans c = _, Hs : run_step _ _ _ _ |- _ =>
      rewrite Ho in Horphans;
      destruct (orphan_page_step _ _ _ _ _ _ Horphans Hs) as [Hos Hes] end.
    split; [|by rewrite (settles_not_calls _ Hes)].
    split; [done|]. simpl.
    destruct Hmain as [(project & cr & Hm & Hcr & Hloaded)|[(rs & Hm & Hrs)|[x Hm]]].
    + left. exists project, cr. split; [done|]. split; [done|].
      intros v Hv. apply in_or_app. left. by apply Hloaded.
    + right. left. eauto.
    + right. right. eauto.
Qed.

Lemma project_state_reachable siteProject c :
  reachable (build_project siteProject) c -> project_state siteProject c.
Proof.
  induction 1 as [|c es c' _ IH Hstep]; [apply project_state_initial|].
  by destruct (project_state_step _ _ _ _ IH Hstep).
Qed.

Lemma existsb_calls_In es siteProject page :
  In (EvCall (ProcessFile siteProject page)) es ->
  existsb calls_processFile es = true.
Proof. intros Hin. apply existsb_exists. eexists. split; [exact Hin|done]. Qed.

Lemma trace_step c es c' : config_step c es c' -> trace c' = trace c ++ es.
Proof. by intros []. Qed.

(** C9: in every execution of [buildProject], whenever a call of
    [processFile] is in the trace, the fulfilment of the citation renderer of
    the project is in the trace before it. *)
Theorem buildProject_citations_first siteProject c before called page after :
  reachable (build_project siteProject) c ->
  trace c = before ++ EvCall (ProcessFile called page) :: after ->
  citations_loaded siteProject before.
Proof.
  intros Hreach. revert before after.
  induction Hreach as [|c es c' Hreach IH Hstep]; intros before after Htrace.
  - exfalso. unfold initial, buildProject in Htrace.
    destruct (loadProjectConfigFromDisk (path siteProject)); simpl in Htrace.
    + destruct before as [|? [|? ?]]; discriminate Htrace.
    + by destruct before.
  - pose proof (project_state_reachable _ _ Hreach) as Hstate.
    destruct (project_state_step _ _ _ _ Hstate Hstep) as [_ Hcalls].
    rewrite (trace_step _ _ _ Hstep) in Htrace.
    apply app_eq_app in Htrace as [l [[Hc Hes]|[Hb Hes]]].
    + destruct l as [|x l].
      * rewrite app_nil_r in Hc. rewrite <- Hc. apply Hcalls.
        simpl in Hes. rewrite <- Hes. eapply existsb_calls_In. by left.
      * injection Hes as <- Hes. by apply (IH before l).
    + destruct Hcalls as [v Hv].
      { rewrite Hes. eapply existsb_calls_In. apply in_or_app. right. by left. }
      exists v. rewrite Hb. apply in_or_app. by left.
Qed.

(** *** [buildSite] *)

Lemma start_buildSite_no_projects session opts :
  no_projects session ->
  start (build_site session opts)
  = (RDone (Normal Cache), buildSite_prefix session opts).
Proof.
  unfold no_projects, buildSite, buildSite_prefix. intros Hnone.
  destruct (force opts || clean opts); simpl;
    destruct (local_site_config session) as [config|]; try reflexivity.
  all: by rewrite Hnone.
Qed.

(** C10: when the site configuration is absent or has no project, the only
    configuration of [buildSite] is the initial one: the call has returned
    the cache, after the clean step (when asked for) and the creation of the
    build folders; no project was built and the manifest was not written. *)
Theorem buildSite_no_projects session opts c :
  no_projects session ->
  reachable (build_site session opts) c ->
  c = {| main := RDone (Normal Cache); orphans := [];
         trace := buildSite_prefix session opts |}
  /\ existsb writes_manifest (trace c) = false
  /\ (forall op, ~ In (EvCall op) (trace c)).
Proof.
  intros Hnone Hreach.
  assert (Hc : c = {| main := RDone (Normal Cache); orphans := [];
                      trace := buildSite_prefix session opts |}).
  { induction Hreach as [|c es c' _ IH Hstep].
    - unfold initial. by rewrite start_buildSite_no_projects.
    - subst c. invert_step Hstep.
      + match goal with Hs : run_step _ _ _ _ |- _ =>
          by destruct (done_no_step _ _ _ _ Hs) end.
      + match goal with Ho : orphans _ = _ |- _ => simpl in Ho end.
        match goal with Ho : [] = ?l ++ _ :: _ |- _ => by destruct l end. }
  split; [exact Hc|]. subst c. unfold buildSite_prefix. cbn [trace].
  destruct (force opts || clean opts); simpl.
  all: split; [reflexivity|]; intros op Hin.
  all: repeat (destruct Hin as [Hin|Hin]; [discriminate Hin|]); destruct Hin.
Qed.

Lemma start_buildSite session opts config :
  local_site_config session = Some config ->
  projects config <> [] ->
  start (build_site session opts)
  = (RWaitAll (map (fun siteProject => fst (start (build_project siteProject)))
                 (projects config)) buildSite_manifest,
     buildSite_prefix session opts
     ++ concat (map (fun siteProject => snd (start (build_project siteProject)))
                  (projects config))).
Proof.
  intros Hconfig Hsome. unfold buildSite, buildSite_prefix. rewrite Hconfig.
  destruct (projects config) as [|siteProject rest]; [done|].
  destruct (force opts || clean opts); cbn -[buildProject].
  all: by rewrite !map_map.
Qed.

Lemma Forall2_map_diag {A B} (P : A -> B -> Prop) (f : A -> B) l :
  (forall x, P x (f x)) -> Forall2 P l (map f l).
Proof. intros Hf. induction l; simpl; by constructor. Qed.

Lemma Forall2_map_right {A B C} (P : A -> B -> Prop) (f : C -> B) l k :
  Forall2 P l (map f k) -> Forall2 (fun x y => P x (f y)) l k.
Proof.
  revert l. induction k as [|y k IH]; intros l Hl; simpl in Hl.
  - inversion Hl. constructor.
  - inversion Hl; subst. constructor; [done|by apply IH].
Qed.

Lemma site_state_initial session opts config :
  local_site_config session = Some config ->
  site_inv config (initial (build_site session opts)).
Proof.
  intros Hconfig. split; [constructor|]. unfold initial.
  destruct (projects config) as [|siteProject rest] eqn:Hprojects.
  - rewrite start_buildSite_no_projects; [right; right; simpl; eauto|].
    unfold no_projects. by rewrite Hconfig.
  - rewrite (start_buildSite _ _ config Hconfig) by (by rewrite Hprojects).
    left. cbn [fst main orphans]. eexists. split; [reflexivity|].
    split; [|split; [|by left]].
    + rewrite Hprojects. apply Forall2_map_diag. intros sp. apply run_here.
    + apply List.Forall_forall. intros r (sp & <- & _)%in_map_iff.
      apply start_buildProject.
Qed.

Lemma orphan_step_kept before o after es os o' :
  Forall (fun o => project_run o \/ page_run o) (before ++ o :: after) ->
  run_step o es os o' ->
  Forall (fun o => project_run o \/ page_run o) (before ++ o' :: after ++ os)
  /\ existsb writes_manifest es = false.
Proof.
  intros [Hbefore Hafter]%Forall_app Hstep.
  inversion Hafter as [|? ? Ho Hafter']; subst.
  assert (Hpages : forall l, Forall page_run l ->
            Forall (fun o => project_run o \/ page_run o) l).
  { intros l Hl. eapply Forall_impl; [exact Hl|]. by right. }
  destruct Ho as [Ho|Ho].
  - destruct (project_run_step _ _ _ _ Ho Hstep) as (Ho' & Hos & _ & Hes).
    split; [|done]. apply Forall_app. split; [done|]. constructor; [by left|].
    apply Forall_app. split; [done|by apply Hpages].
  - destruct (page_run_step _ _ _ _ Ho Hstep) as (Ho' & -> & Hes).
    split; [|by apply settles_not_writes].
    apply Forall_app. split; [done|]. constructor; [by right|].
    by rewrite app_nil_r.
Qed.

Lemma fulfilled_not_thrown vs e : ~ In (RDone (Thrown e)) (map fulfilled vs).
Proof. by intros (v & [=] & _)%in_map_iff. Qed.

(** A step keeps the invariant.  The manifest is written only by the step
    that resumes [buildSite] after [Promise.all]: every project run is then
    fulfilled and no run has been left behind. *)
Lemma site_state_step config c es c' :
  site_inv config c -> config_step c es c' ->
  site_inv config c'
  /\ (existsb writes_manifest es = true ->
      es = manifest_effects
      /\ orphans c = []
      /\ exists vs,
           main c = RWaitAll (map fulfilled vs) buildSite_manifest
           /\ Forall2 (fun siteProject v => run_of_project siteProject (fulfilled v))
                (projects config) vs).
Proof.
  intros [Horphans Hmain] Hstep. invert_step Hstep.
  - match goal with Hs : run_step (main c) _ _ _ |- _ => rename Hs into Hrun end.
    destruct Hmain as [(rs & Hm & Hof & Hrs & Hleft)|[Hm|[x Hm]]]; rewrite Hm in Hrun.
    + invert_step Hrun.
      * (* a project takes a step *)
        apply Forall2_app_inv_r in Hof as (ps1 & ps2 & Hof1 & Hof2 & Hps).
        apply Forall2_cons_inv_r in Hof2 as (sp & ps2' & Hsp & Hof2 & ->).
        apply Forall_app in Hrs as [Hbefore Hafter].
        inversion Hafter as [|? ? Hc0 Hafter']; subst.
        match goal with Hs : run_step _ _ _ _ |- _ =>
          pose proof Hs as Hchild;
          destruct (project_run_step _ _ _ _ Hc0 Hs) as (Hc' & Hos & Hcause & Hes) end.
        split; [|by rewrite Hes].
        split.
        { cbn [orphans]. apply Forall_app. split; [done|].
          eapply Forall_impl; [exact Hos|]. by right. }
        left. cbn [main orphans]. eexists. split; [reflexivity|].
        split; [|split].
        { rewrite Hps. apply Forall2_app; [done|]. constructor; [|done].
          eapply run_later; [exact Hsp|exact Hchild]. }
        { apply Forall_app. split; [done|by constructor]. }
        destruct Hcause as [->|[e ->]].
        { rewrite app_nil_r. destruct Hleft as [Hnone|[e He]]; [by left|].
          right. exists e. apply in_app_or in He as [He|[He|He]].
          - apply in_or_app. by left.
          - subst. by destruct (done_no_step _ _ _ _ Hchild).
          - apply in_or_app. right. by right. }
        right. exists e. apply in_or_app. right. by left.
      * (* every project is fulfilled: the manifest is written *)
        split.
        { split; [by rewrite app_nil_r|]. right. left. reflexivity. }
        intros _. split; [reflexivity|]. split.
        { destruct Hleft as [Hnone|[e He]]; [done|].
          by destruct (fulfilled_not_thrown _ _ He). }
        exists vs. split; [done|]. by apply Forall2_map_right.
      * (* a project was rejected *)
        split; [|done]. split.
        { cbn [orphans]. apply Forall_app. split; [done|].
          apply Forall_filter_pending.
          apply Forall_app in Hrs as [Hbefore Hafter]. inversion Hafter; subst.
          eapply Forall_impl; [apply Forall_app; by split|]. by left. }
        right. right. simpl. eauto.
    + invert_step Hrun.
      * match goal with Hs : run_step (RDone _) _ _ _ |- _ =>
          by destruct (done_no_step _ _ _ _ Hs) end.
      * split; [|done]. split; [by rewrite app_nil_r|]. right. right. simpl. eauto.
    + by destruct (done_no_step _ _ _ _ Hrun).
  - match goal with Ho : orphans c = _, Hs : run_step _ _ _ _ |- _ =>
      rename Ho into Heq; rewrite Heq in Horphans;
      destruct (orphan_step_kept _ _ _ _ _ _ Horphans Hs) as [Hos Hes] end.
    split; [|by rewrite Hes]. split; [done|]. cbn [main orphans].
    destruct Hmain as [(rs & Hm & Hof & Hrs & Hleft)|[Hm|[x Hm]]].
    + left. exists rs. split; [done|]. split; [done|]. split; [done|].
      destruct Hleft as [Hnone|Hthrown]; [|by right].
      rewrite Hnone in Heq. by destruct before.
    + right. by left.
    + right. right. eauto.
Qed.

Lemma site_state_reachable session opts config c :
  local_site_config session = Some config ->
  reachable (build_site session opts) c -> site_inv config c.
Proof.
  intros Hconfig. induction 1 as [|c es c' _ IH Hstep].
  - by apply site_state_initial.
  - by destruct (site_state_step _ _ _ _ IH Hstep).
Qed.

(** *** Calls in flight

    In every execution of any asynchronous code, the calls made so far are
    those that have settled and those that are pending, in the call itself
    or in a run it has left behind. *)

Lemma calls_made_app es es' : calls_made (es ++ es') = calls_made es + calls_made es'.
Proof. unfold calls_made. by rewrite List.filter_app, length_app. Qed.

Lemma calls_settled_app es es' :
  calls_settled (es ++ es') = calls_settled es + calls_settled es'.
Proof. unfold calls_settled. by rewrite List.filter_app, length_app. Qed.

Lemma list_sum_in_flight_app rs rs' :
  list_sum (map in_flight (rs ++ rs'))
  = list_sum (map in_flight rs) + list_sum (map in_flight rs').
Proof. by rewrite map_app, list_sum_app. Qed.

Lemma start_all_in_flight (ts : list Async) :
  Forall (fun t => in_flight (fst (start t)) = calls_made (snd (start t))
                   /\ calls_settled (snd (start t)) = 0) ts ->
  list_sum (map in_flight (map fst (map start ts)))
  = calls_made (concat (map snd (map start ts)))
  /\ calls_settled (concat (map snd (map start ts))) = 0.
Proof.
  induction 1 as [|t ts [Ht Hs] _ [IH IHs]]; [done|]. simpl.
  rewrite calls_made_app, calls_settled_app. lia.
Qed.

(** A call that has run up to its first [await] has made the calls that
    are pending in it, and none of them has settled. *)
Lemma start_in_flight :
  forall t : Async,
    in_flight (fst (start t)) = calls_made (snd (start t))
    /\ calls_settled (snd (start t)) = 0.
Proof.
  fix started 1. intros t.
  destruct t as [v|e|eff k|op|t k|ts k]; simpl; try done.
  - destruct (started k) as [Hk Hs]. by destruct (start k).
  - destruct (started t) as [Ht Hs]. by destruct (start t).
  - apply start_all_in_flight.
    induction ts as [|t ts IH]; constructor; [apply started|exact IH].
Qed.

Lemma fulfilled_in_flight vs : list_sum (map in_flight (map fulfilled vs)) = 0.
Proof. by induction vs. Qed.

Lemma pending_in_flight rs :
  list_sum (map in_flight (List.filter pending rs)) = list_sum (map in_flight rs).
Proof.
  induction rs as [|r rs IH]; [done|]. simpl.
  destruct r; simpl; by rewrite IH.
Qed.

Lemma run_step_in_flight r es os r' :
  run_step r es os r' ->
  in_flight r + calls_made es
  = in_flight r' + list_sum (map in_flight os) + calls_settled es.
Proof.
  induction 1 as [op v|op e|c es os c' k _ IH|v k|e k
                  |before c after es os c' k _ IH|vs k|before e after k];
    cbn [in_flight]; try done.
  - destruct (start_in_flight (k v)) as [-> ->]. simpl. lia.
  - rewrite !list_sum_in_flight_app. simpl. lia.
  - destruct (start_in_flight (k vs)) as [-> ->].
    rewrite fulfilled_in_flight. simpl. lia.
  - rewrite pending_in_flight, !list_sum_in_flight_app.
    unfold calls_made, calls_settled. simpl. lia.
Qed.

Lemma reachable_in_flight t c :
  reachable t c ->
  calls_made (trace c)
  = calls_settled (trace c) + in_flight (main c) + list_sum (map in_flight (orphans c)).
Proof.
  induction 1 as [|c es c' _ IH Hstep].
  - unfold initial. cbn [main orphans trace].
    destruct (start_in_flight t) as [-> ->]. simpl. lia.
  - invert_step Hstep; cbn [main orphans trace].
    + match goal with Hs : run_step _ _ _ _ |- _ =>
        pose proof (run_step_in_flight _ _ _ _ Hs) as Hrun end.
      rewrite calls_made_app, calls_settled_app, list_sum_in_flight_app. lia.
    + match goal with Ho : orphans c = _, Hs : run_step _ _ _ _ |- _ =>
        rewrite Ho in IH; pose proof (run_step_in_flight _ _ _ _ Hs) as Hrun end.
      rewrite calls_made_app, calls_settled_app.
      rewrite list_sum_in_flight_app in IH. simpl in IH.
      rewrite list_sum_in_flight_app. simpl. rewrite list_sum_in_flight_app. lia.
Qed.

(** The first turn of [buildSite] does not write the manifest. *)
Lemma initial_buildSite_writes session opts :
  existsb writes_manifest (trace (initial (build_site session opts))) = false.
Proof.
  unfold initial. cbn [trace].
  assert (Hprefix : existsb writes_manifest (buildSite_prefix session opts) = false).
  { unfold buildSite_prefix. by destruct (force opts || clean opts). }
  destruct (local_site_config session) as [config|] eqn:Hconfig.
  - destruct (projects config) as [|sp projs] eqn:Hprojects.
    + rewrite start_buildSite_no_projects; [done|].
      unfold no_projects. by rewrite Hconfig.
    + rewrite (start_buildSite _ _ config Hconfig) by (by rewrite Hprojects).
      cbn [snd]. rewrite existsb_app, Hprefix. simpl.
      clear. induction (projects config) as [|sp projs IH]; [done|].
      simpl. rewrite existsb_app, IH, orb_false_r.
      destruct (start_buildProject sp) as [_ Hcalls].
      induction (snd (start (build_project sp))) as [|e es IHes]; [done|].
      simpl in *. apply andb_true_iff in Hcalls as [He Hes].
      rewrite (IHes Hes), orb_false_r. by destruct e as [| [] | |].
  - rewrite start_buildSite_no_projects; [done|].
    unfold no_projects. by rewrite Hconfig.
Qed.

Lemma writes_manifest_In es :
  In (EvEffect WriteConfigJson) es -> existsb writes_manifest es = true.
Proof. intros Hin. apply existsb_exists. eexists. split; [exact Hin|done]. Qed.

(** C8: in every execution of [buildSite], wherever the trace has the write
    of the manifest, the turn that writes it began in a configuration in
    which the run of every configured project was fulfilled, in the order
    of the configuration, and nothing was in flight: [buildSite] was at its
    [Promise.all], no run had been left behind, and every call made up to
    the write had settled.  The first turn, in which the projects are
    started, does not write it. *)
Theorem buildSite_manifest_barrier session opts config c before after :
  local_site_config session = Some config ->
  reachable (build_site session opts) c ->
  trace c = before ++ EvEffect WriteConfigJson :: after ->
  calls_made before = calls_settled before
  /\ exists c0 vs,
       reachable (build_site session opts) c0
       /\ before = trace c0 ++ [EvEffect (LogInfo MsgWritingSiteConfig)]
       /\ orphans c0 = []
       /\ in_flight (main c0) = 0
       /\ main c0 = RWaitAll (map fulfilled vs) buildSite_manifest
       /\ Forall2 (fun siteProject v => run_of_project siteProject (fulfilled v))
            (projects config) vs.
Proof.
  intros Hconfig Hreach. revert before after.
  induction Hreach as [|c es c' Hreach IH Hstep]; intros before after Htrace.
  - pose proof (initial_buildSite_writes session opts) as Hnone.
    rewrite Htrace, existsb_app in Hnone. simpl in Hnone.
    by rewrite orb_true_r in Hnone.
  - pose proof (site_state_reachable _ _ _ _ Hconfig Hreach) as Hstate.
    destruct (site_state_step _ _ _ _ Hstate Hstep) as [_ Hwrite].
    rewrite (trace_step _ _ _ Hstep) in Htrace.
    assert (Hhere : existsb writes_manifest es = true ->
              before = trace c ++ [EvEffect (LogInfo MsgWritingSiteConfig)] ->
              calls_made before = calls_settled before
              /\ exists c0 vs,
                   reachable (build_site session opts) c0
                   /\ before = trace c0 ++ [EvEffect (LogInfo MsgWritingSiteConfig)]
                   /\ orphans c0 = []
                   /\ in_flight (main c0) = 0
                   /\ main c0 = RWaitAll (map fulfilled vs) buildSite_manifest
                   /\ Forall2 (fun siteProject v =>
                                 run_of_project siteProject (fulfilled v))
                        (projects config) vs).
    { intros Hes Hbefore.
      destruct (Hwrite Hes) as (_ & Hnone & vs & Hmain & Hof).
      assert (Hflight : in_flight (main c) = 0).
      { rewrite Hmain. cbn [in_flight]. apply fulfilled_in_flight. }
      split.
      - pose proof (reachable_in_flight _ _ Hreach) as Hcount.
        rewrite Hnone, Hflight in Hcount. simpl in Hcount.
        rewrite Hbefore, calls_made_app, calls_settled_app.
        unfold calls_made at 2, calls_settled at 2. simpl. lia.
      - exists c, vs. by repeat split. }
    apply app_eq_app in Htrace as [l [[Hc Hes]|[Hb Hes]]].
    + destruct l as [|x l].
      * (* the write is the first event of the step *)
        exfalso. simpl in Hes.
        assert (Hin : In (EvEffect WriteConfigJson) es) by (rewrite <- Hes; by left).
        destruct (Hwrite (writes_manifest_In _ Hin)) as (Heq & _).
        rewrite Heq in Hes. discriminate Hes.
      * injection Hes as <- Hes. by apply (IH before l).
    + assert (Hin : In (EvEffect WriteConfigJson) es).
      { rewrite Hes. apply in_or_app. right. by left. }
      destruct (Hwrite (writes_manifest_In _ Hin)) as (Heq & _).
      rewrite Heq in Hes.
      destruct l as [|x [|y l]].
      * discriminate Hes.
      * injection Hes as <- _. apply Hhere; [by rewrite Heq|done].
      * injection Hes as _ _ Hl. by destruct l.
Qed.

End SiteFacts.

End BuildFacts.

(** *** Two executions *)

Module SampleRuns.

Import Build SampleSite.

Lemma project2_reachable :
  reachable (buildProject loadProjectConfigFromDisk docs) project2.
Proof.
  eapply reach_step; [eapply reach_step; [apply reach_initial|]|].
  - exact (step_main project0 _ _ _
             (step_wait_child _ _ _ _ _ (step_fulfil citations Renderer))).
  - exact (step_main project1 _ _ _ (step_wait_resume Renderer pages_of_docs)).
Qed.

Lemma site2_reachable :
  reachable (buildSite loadProjectConfigFromDisk session opts) site2.
Proof.
  eapply reach_step; [eapply reach_step; [apply reach_initial|]|].
  - exact (step_main site0 _ _ _
             (step_all_child [] _ [] _ _ _ _
                (step_wait_child _ _ _ _ _ (step_fulfil citations Renderer)))).
  - exact (step_main site1 _ _ _
             (step_all_child [] _ [] _ _ _ _
                (step_wait_resume Renderer pages_of_docs))).
Qed.

Lemma site4_reachable :
  reachable (buildSite loadProjectConfigFromDisk session opts) site4.
Proof.
  eapply reach_step; [eapply reach_step; [apply site2_reachable|]|].
  - exact (step_main site2 _ _ _
             (step_all_child [] _ [] _ _ _ _
                (step_all_child [] _ [] _ _ _ _
                   (step_fulfil index_file (PageResults [true]))))).
  - exact (step_main site3 _ _ _
             (step_all_child [] _ [] _ _ _ _
                (step_all_resume [PageResults [true]] (buildProject_report docs)))).
Qed.

Lemma site4_writes : config_step site4 manifest_effects site5.
Proof.
  exact (step_main site4 _ _ _
           (step_all_resume [Built [PageResults [true]] 1] buildSite_manifest)).
Qed.

Lemma site5_reachable :
  reachable (buildSite loadProjectConfigFromDisk session opts) site5.
Proof.
  eapply reach_step; [apply site4_reachable|apply site4_writes].
Qed.

End SampleRuns.

Lemma buildProject_citations_first_witness :
  Build.citations_loaded SampleSite.docs
    [Build.EvCall SampleSite.citations;
     Build.EvFulfilled SampleSite.citations Build.Renderer].
Proof.
  apply (BuildFacts.buildProject_citations_first
           SampleSite.loadProjectConfigFromDisk SampleSite.docs SampleSite.project2
           _ SampleSite.docs SampleSite.index_page []).
  - apply SampleRuns.project2_reachable.
  - reflexivity.
Defined.

Lemma buildSite_manifest_barrier_witness :
  Build.calls_made
    (Build.trace SampleSite.site4
     ++ [Build.EvEffect (Build.LogInfo Build.MsgWritingSiteConfig)])
  = Build.calls_settled
      (Build.trace SampleSite.site4
       ++ [Build.EvEffect (Build.LogInfo Build.MsgWritingSiteConfig)])
  /\ exists c0 vs,
       Build.reachable
         (Build.buildSite SampleSite.loadProjectConfigFromDisk SampleSite.session
            SampleSite.opts) c0
       /\ Build.trace SampleSite.site4
          ++ [Build.EvEffect (Build.LogInfo Build.MsgWritingSiteConfig)]
          = Build.trace c0 ++ [Build.EvEffect (Build.LogInfo Build.MsgWritingSiteConfig)]
       /\ Build.orphans c0 = []
       /\ Build.in_flight (Build.main c0) = 0
       /\ Build.main c0
          = Build.RWaitAll (map Build.fulfilled vs) Build.buildSite_manifest
       /\ Forall2
            (fun siteProject v =>
               Build.project_run_of SampleSite.loadProjectConfigFromDisk
                 siteProject (Build.fulfilled v))
            (Build.projects SampleSite.site) vs.
Proof.
  apply (BuildFacts.buildSite_manifest_barrier
           SampleSite.loadProjectConfigFromDisk SampleSite.session SampleSite.opts
           SampleSite.site SampleSite.site5
           (Build.trace SampleSite.site4
            ++ [Build.EvEffect (Build.LogInfo Build.MsgWritingSiteConfig)]) []).
  - reflexivity.
  - apply SampleRuns.site5_reachable.
  - reflexivity.
Defined.

Lemma buildSite_no_projects_witness :
  Build.initial (Build.buildSite SampleSite.loadProjectConfigFromDisk
                   SampleSite.empty_session SampleSite.opts)
  = {| Build.main := Build.RDone (Normal Build.Cache);
       Build.orphans := [];
       Build.trace := Build.buildSite_prefix SampleSite.empty_session
                        SampleSite.opts |}
  /\ existsb Build.writes_manifest
       (Build.trace (Build.initial
          (Build.buildSite SampleSite.loadProjectConfigFromDisk
             SampleSite.empty_session SampleSite.opts))) = false
  /\ (forall op,
        ~ In (Build.EvCall op)
            (Build.trace (Build.initial
               (Build.buildSite SampleSite.loadProjectConfigFromDisk
                  SampleSite.empty_session SampleSite.opts)))).
Proof.
  apply (BuildFacts.buildSite_no_projects SampleSite.loadProjectConfigFromDisk
           SampleSite.empty_session SampleSite.opts).
  - reflexivity.
  - apply Build.reach_initial.
Defined.

(** * Further properties *)

Section MoreOptionFacts.

Variable StringToNumber : string -> JsNumber.
Variable ObjectToNumber : JsVal -> JsNumber.
Variable select : string -> JsVal -> JsVal.

Local Abbreviation run_options := (getCodeBlockOptions StringToNumber ObjectToNumber select).
Local Abbreviation is_gt_one := (gt_one StringToNumber ObjectToNumber).
Local Abbreviation is_le_one := (le_one StringToNumber ObjectToNumber).

Lemma parseEmphasizeLines_world v w :
  snd (parseEmphasizeLines StringToNumber v w) = w.
Proof.
  unfold parseEmphasizeLines.
  destruct v as [| |b|n|s|l|o|f]; simpl; try reflexivity.
  - by destruct b.
  - by destruct (Js.num_truthy n).
  - by destruct (JsString.is_empty s).
Qed.

Lemma parseEmphasizeLines_normal v w :
  (exists lines, fst (parseEmphasizeLines StringToNumber v w) = Normal lines)
  <-> string_or_falsy v = true.
Proof.
  unfold parseEmphasizeLines, string_or_falsy.
  destruct v as [| |b|n|s|l|o|f]; simpl; try (split; [intros [? [=]]|discriminate]);
    try (split; eauto; fail).
  - destruct b; simpl; split; eauto; try discriminate. by intros [? [=]].
  - destruct (Js.num_truthy n); simpl; split; eauto; try discriminate. by intros [? [=]].
  - destruct (JsString.is_empty s); simpl; split; eauto.
Qed.

Lemma filename_toLowerCase_world v w : snd (filename_toLowerCase v w) = w.
Proof. by destruct v. Qed.

Lemma filename_toLowerCase_normal v w :
  (exists lowered, fst (filename_toLowerCase v w) = Normal lowered)
  <-> string_or_nullish v = true.
Proof.
  destruct v; simpl; split; eauto; try discriminate; by intros [? [=]].
Qed.

Lemma warning_step data w :
  (if negb (Js.nullish (opt (data_options data) "lineno-start"))
      && negb (Js.nullish (opt (data_options data) "number-lines"))
   then fileWarn both_linenos_message
          {| opt_node := Js.coalesce (select (option_selector "number-lines")
                                        (data_node data)) (data_node data);
             opt_source := "code-block:options";
             opt_ruleId := directiveOptionsCorrect |}
   else ret tt) w
  = (Normal tt,
     with_messages w (if both_present data
                      then [both_linenos_warning select data] else [])).
Proof.
  unfold both_present.
  destruct (negb (Js.nullish (opt (data_options data) "lineno-start"))
            && negb (Js.nullish (opt (data_options data) "number-lines"))).
  - reflexivity.
  - unfold ret. by rewrite with_no_messages.
Qed.

(** X1: the only diagnostic that [getCodeBlockOptions] ever leaves is the
    warning about the two line-number options, once and exactly when both
    are present; this holds also when the call goes on to throw. *)
Theorem getCodeBlockOptions_messages data defaultFilename w :
  snd (run_options data defaultFilename w)
  = with_messages w
      (if both_present data then [both_linenos_warning select data] else []).
Proof.
  unfold getCodeBlockOptions. unfold bind at 1. rewrite warning_step.
  unfold bind at 1.
  set (w1 := with_messages w _).
  pose proof (parseEmphasizeLines_world (opt (data_options data) "emphasize-lines") w1)
    as Hw.
  destruct (parseEmphasizeLines StringToNumber _ w1) as [[lines|e] w2];
    simpl in Hw; subst w2; [|reflexivity].
  unfold bind.
  pose proof (filename_toLowerCase_world (opt (data_options data) "filename") w1)
    as Hw.
  destruct (filename_toLowerCase _ w1) as [[lowered|e] w2];
    simpl in Hw; subst w2; reflexivity.
Qed.

(** X2: [getCodeBlockOptions] returns, rather than throws a [TypeError],
    exactly when "emphasize-lines" is a string or falsy and "filename" is a
    string or nullish. *)
Theorem getCodeBlockOptions_returns_iff data defaultFilename w :
  (exists r, fst (run_options data defaultFilename w) = Normal r)
  <-> string_or_falsy (opt (data_options data) "emphasize-lines") = true
      /\ string_or_nullish (opt (data_options data) "filename") = true.
Proof.
  unfold getCodeBlockOptions. unfold bind at 1. rewrite warning_step.
  unfold bind at 1.
  set (w1 := with_messages w _).
  rewrite <- (parseEmphasizeLines_normal _ w1), <- (filename_toLowerCase_normal _ w1).
  pose proof (parseEmphasizeLines_world (opt (data_options data) "emphasize-lines") w1)
    as Hw.
  destruct (parseEmphasizeLines StringToNumber _ w1) as [[lines|e] w2];
    simpl in Hw; subst w2; simpl.
  - unfold bind.
    destruct (filename_toLowerCase _ w1) as [[lowered|e] w2]; simpl.
    + split; eauto.
    + split; [intros [? [=]]|intros [_ [? [=]]]].
  - split; [intros [? [=]]|intros [[? [=]] _]].
Qed.

(** The fields of a result, whatever the other options hold. *)
Lemma getCodeBlockOptions_fields data defaultFilename w r :
  fst (run_options data defaultFilename w) = Normal r ->
  showLineNumbers r
  = (if Js.truthy (opt (data_options data) "linenos")
        || Js.truthy (opt (data_options data) "lineno-start")
        || Js.truthy (opt (data_options data) "lineno-match")
        || Js.truthy (opt (data_options data) "number-lines")
     then VBool true else VUndefined)
  /\ startingLineNumber r
     = (let chosen :=
          if negb (Js.nullish (opt (data_options data) "number-lines"))
             && is_gt_one (opt (data_options data) "number-lines")
          then opt (data_options data) "number-lines"
          else opt (data_options data) "lineno-start" in
        if Js.truthy (opt (data_options data) "lineno-match") then VStr "match"
        else if Js.nullish chosen || is_le_one chosen then VUndefined
             else chosen).
Proof.
  unfold getCodeBlockOptions. unfold bind at 1. rewrite warning_step.
  unfold bind at 1.
  set (w1 := with_messages w _).
  destruct (parseEmphasizeLines StringToNumber _ w1) as [[lines|e] w2];
    [|discriminate].
  unfold bind.
  destruct (filename_toLowerCase _ w2) as [[lowered|e] w3]; [|discriminate].
  simpl. intros [= <-]. by split.
Qed.

(** X3: the starting line number is [undefined], the string "match", or a value
    that is not nullish and not at most 1. *)
Theorem getCodeBlockOptions_start_range data defaultFilename w r :
  fst (run_options data defaultFilename w) = Normal r ->
  startingLineNumber r = VUndefined
  \/ startingLineNumber r = VStr "match"
  \/ (Js.nullish (startingLineNumber r) = false
      /\ is_le_one (startingLineNumber r) = false
      /\ (startingLineNumber r = opt (data_options data) "number-lines"
          \/ startingLineNumber r = opt (data_options data) "lineno-start")).
Proof.
  intros [_ ->]%getCodeBlockOptions_fields. cbv zeta.
  destruct (Js.truthy (opt (data_options data) "lineno-match")); [by right; left|].
  match goal with |- context [Js.nullish ?c || _] => set (chosen := c) end.
  destruct (Js.nullish chosen) eqn:Hn; [by left|].
  destruct (is_le_one chosen) eqn:Hle; [by left|]. simpl.
  right. right. split; [done|]. split; [done|].
  unfold chosen. destruct (_ && _); [by left|by right].
Qed.

Lemma gt_one_truthy n : Js.num_gt_one n = true -> Js.num_truthy n = true.
Proof.
  destruct n as [| | |q]; simpl; try done.
  intros Hgt%negb_true_iff. apply negb_true_iff.
  destruct (Qeq_bool q 0) eqn:Heq; [|done].
  apply Qeq_bool_iff in Heq.
  assert (Qle_bool q 1 = true); [|congruence].
  apply Qle_bool_iff. rewrite Heq. discriminate.
Qed.

Lemma not_le_one_truthy n :
  n <> NaN -> Js.num_le_one n = false -> Js.num_truthy n = true.
Proof.
  destruct n as [| | |q]; simpl; try done.
  intros _ Hle. apply negb_true_iff.
  destruct (Qeq_bool q 0) eqn:Heq; [|done].
  apply Qeq_bool_iff in Heq.
  assert (Qle_bool q 1 = true); [|congruence].
  apply Qle_bool_iff. rewrite Heq. discriminate.
Qed.

(** X4: with line-number options that are numbers, a starting line number is
    never set without line numbers being shown. *)
Theorem getCodeBlockOptions_start_shown data defaultFilename w r :
  number_or_nullish (opt (data_options data) "lineno-start") = true ->
  number_or_nullish (opt (data_options data) "number-lines") = true ->
  fst (run_options data defaultFilename w) = Normal r ->
  startingLineNumber r <> VUndefined ->
  showLineNumbers r = VBool true.
Proof.
  intros Hstart Hnumber [-> ->]%getCodeBlockOptions_fields. cbv zeta.
  destruct (Js.truthy (opt (data_options data) "lineno-match"));
    [by rewrite !orb_true_r|].
  rewrite orb_false_r.
  destruct (Js.truthy (opt (data_options data) "linenos")); [done|]. simpl.
  destruct (opt (data_options data) "number-lines") as [| | |n| | | |];
    try discriminate Hnumber; simpl.
  1,2: destruct (opt (data_options data) "lineno-start") as [| | |m| | | |];
         try discriminate Hstart; simpl; try done;
       unfold le_one; simpl;
       destruct (Js.num_le_one m) eqn:Hle; [done|];
       rewrite (not_le_one_truthy m); [done|by destruct m|done].
  unfold gt_one, le_one. simpl.
  destruct (Js.num_gt_one n) eqn:Hgt.
  - rewrite (gt_one_truthy n Hgt). by rewrite orb_true_r.
  - destruct (opt (data_options data) "lineno-start") as [| | |m| | | |];
      try discriminate Hstart; simpl; try done.
    destruct (Js.num_le_one m) eqn:Hle; [done|].
    rewrite (not_le_one_truthy m); [done|by destruct m|done].
Qed.


End MoreOptionFacts.
(** ** More on [parseTags] *)

(** *** White space and [trim] *)

Lemma space_width_length s : JsString.space_width s <= String.length s.
Proof.
  destruct s as [|a [|b [|c s]]]; cbn [JsString.space_width String.length]; [lia|..].
  - destruct (JsString.is_space1 a); lia.
  - destruct (JsString.is_space1 a); [lia|]. destruct (JsString.is_space2 a b); lia.
  - destruct (JsString.is_space1 a); [lia|].
    destruct (JsString.is_space2 a b); [lia|].
    destruct (JsString.is_space3 a b c); lia.
Qed.

Lemma append_cons c p r : (String c p ++ r)%string = String c (p ++ r).
Proof. reflexivity. Qed.

Lemma append_empty r : (EmptyString ++ r)%string = r.
Proof. reflexivity. Qed.

(** A string that begins with white space still does when it goes on. *)
Lemma space_width_app p r k :
  JsString.space_width p = S k -> JsString.space_width (p ++ r) = S k.
Proof.
  destruct p as [|a [|b [|c p]]]; rewrite ?append_cons, ?append_empty;
    cbn [JsString.space_width]; [discriminate|..].
  - destruct (JsString.is_space1 a); [|discriminate].
    intros <-. by destruct r as [|b [|c r]].
  - destruct (JsString.is_space1 a); [intros <-; by destruct r|].
    destruct (JsString.is_space2 a b); [|discriminate].
    intros <-. by destruct r.
  - done.
Qed.

Lemma trimStart_black s : starts_black s = true -> JsString.trimStart s = s.
Proof.
  unfold starts_black, JsString.trimStart. intros Hs%Nat.eqb_eq.
  destruct s as [|c s]; [done|]. cbn [JsString.trimStart_from]. by rewrite Hs.
Qed.

Lemma starts_black_trimStart_from s :
  forall skip, starts_black (JsString.trimStart_from skip s) = true.
Proof.
  induction s as [|c s IH]; intros skip; [done|].
  cbn [JsString.trimStart_from]. destruct skip as [|remaining]; [|apply IH].
  destruct (JsString.space_width (String c s)) eqn:Hw; [|apply IH].
  unfold starts_black. by rewrite Hw.
Qed.

Lemma starts_black_trimStart s : starts_black (JsString.trimStart s) = true.
Proof. apply starts_black_trimStart_from. Qed.

(** White space in front of a string is stripped together with the white
    space the string begins with. *)
Lemma trimStart_from_app p :
  forall skip r,
    skip <= String.length p ->
    JsString.trimStart_from skip p = EmptyString ->
    JsString.trimStart_from skip (p ++ r) = JsString.trimStart r.
Proof.
  induction p as [|c p IH]; intros skip r Hskip Hblank.
  - simpl in Hskip. by replace skip with 0 by lia.
  - rewrite append_cons. cbn [JsString.trimStart_from] in *.
    destruct skip as [|remaining].
    + rewrite <- append_cons.
      destruct (JsString.space_width (String c p)) as [|remaining] eqn:Hw;
        [discriminate Hblank|].
      rewrite (space_width_app _ r _ Hw). apply IH; [|done].
      pose proof (space_width_length (String c p)) as Hle.
      rewrite Hw in Hle. simpl in Hle. lia.
    + apply IH; [|done]. simpl in Hskip. lia.
Qed.

Lemma is_blank_app p r :
  JsString.is_blank p = true -> JsString.is_blank r = true ->
  JsString.is_blank (p ++ r) = true.
Proof.
  unfold JsString.is_blank, JsString.trimStart. intros Hp Hr.
  rewrite trimStart_from_app; [done|lia|].
  by destruct (JsString.trimStart_from 0 p).
Qed.

(** What [trimEnd] cuts off is white space. *)
Lemma trimEnd_cut s :
  exists r, s = (JsString.trimEnd s ++ r)%string /\ JsString.is_blank r = true.
Proof.
  induction s as [|c s (r & IH & Hr)]; [by exists EmptyString|].
  cbn [JsString.trimEnd].
  destruct (JsString.is_blank (String c s)) eqn:Hblank.
  - by exists (String c s).
  - exists r. split; [|done]. by rewrite append_cons, <- IH.
Qed.

Lemma trimEnd_idempotent s : JsString.trimEnd (JsString.trimEnd s) = JsString.trimEnd s.
Proof.
  induction s as [|c s IH]; [reflexivity|]. cbn [JsString.trimEnd].
  destruct (JsString.is_blank (String c s)) eqn:Hblank; [reflexivity|].
  cbn [JsString.trimEnd]. rewrite IH.
  destruct (JsString.is_blank (String c (JsString.trimEnd s))) eqn:Hcut; [|reflexivity].
  destruct (trimEnd_cut s) as (r & Hs & Hr).
  rewrite Hs, <- append_cons in Hblank.
  by rewrite (is_blank_app _ _ Hcut Hr) in Hblank.
Qed.

Lemma starts_black_trimEnd s :
  starts_black s = true -> starts_black (JsString.trimEnd s) = true.
Proof.
  unfold starts_black. intros Hs%Nat.eqb_eq. apply Nat.eqb_eq.
  destruct (JsString.space_width (JsString.trimEnd s)) as [|k] eqn:Hw; [done|].
  destruct (trimEnd_cut s) as (r & Hcut & _).
  apply (space_width_app _ r) in Hw. rewrite <- Hcut in Hw. lia.
Qed.

Lemma trim_idempotent s : JsString.trim (JsString.trim s) = JsString.trim s.
Proof.
  unfold JsString.trim.
  rewrite (trimStart_black (JsString.trimEnd (JsString.trimStart s))).
  - apply trimEnd_idempotent.
  - apply starts_black_trimEnd, starts_black_trimStart.
Qed.

Lemma trim_and_drop_empty_clean l : Forall clean_tag (trim_and_drop_empty l).
Proof.
  apply List.Forall_forall. intros t [(x & <- & _)%in_map_iff Ht]%filter_In.
  split; [by apply negb_true_iff|apply trim_idempotent].
Qed.

Lemma trim_and_drop_empty_fixed l :
  Forall clean_tag l -> trim_and_drop_empty l = l.
Proof.
  induction 1 as [|t l [Hne Ht] _ IH]; [reflexivity|].
  unfold trim_and_drop_empty in *. simpl. rewrite Ht, Hne. simpl. by rewrite IH.
Qed.

Section MoreTagFacts.

Variable select : string -> JsVal -> JsVal.
Variable yaml_load : string -> Completion JsVal.

Local Abbreviation parse := (parseTags select yaml_load).

Lemma outcome_undefined node w : tags_outcome select node w (ret VUndefined w).
Proof.
  exists []. split; [by rewrite with_no_messages|]. left. split; [done|by left].
Qed.

Lemma outcome_tags node w (pieces : list string) :
  tags_outcome select node w
    (ret (if (0 <? length (trim_and_drop_empty pieces))%nat
          then VArr (map VStr (trim_and_drop_empty pieces))
          else VUndefined) w).
Proof.
  destruct (0 <? _)%nat; [|apply outcome_undefined].
  exists []. split; [by rewrite with_no_messages|]. right. split; [done|].
  eexists. split; [reflexivity|]. apply trim_and_drop_empty_clean.
Qed.

Lemma outcome_list node w (l : list JsVal) :
  tags_outcome select node w
    ((if forallb Js.is_string l
      then if (0 <? length l)%nat
           then ret (VArr (map VStr (trim_and_drop_empty (strings_of l))))
           else ret VUndefined
      else fileWarn "tags in code-cell directive must be a list of strings"
             (tags_selector_options select node) ;; ret VUndefined) w).
Proof.
  destruct (forallb Js.is_string l).
  - destruct (0 <? length l)%nat; [|apply outcome_undefined].
    exists []. split; [by rewrite with_no_messages|]. right. split; [done|].
    eexists. split; [reflexivity|]. apply trim_and_drop_empty_clean.
  - exists [tags_not_strings_warning select node]. split; [reflexivity|].
    left. split; [reflexivity|]. right. by right.
Qed.

Lemma outcome_load_error node w :
  tags_outcome select node w
    (Normal VUndefined, with_messages w [tags_load_error select node]).
Proof.
  exists [tags_load_error select node]. split; [done|].
  left. split; [done|]. right. by left.
Qed.

(** Every call of [parseTags] comes to one of these outcomes. *)
Lemma parseTags_outcome depth :
  forall input node w,
    tags_outcome select node w (parse depth input node w).
Proof.
  induction depth as [|depth IH]; intros input node w.
  - destruct input as [| |b|n|s|l|o|f]; simpl; try apply outcome_undefined.
    + destruct b; apply outcome_undefined.
    + destruct (Js.num_truthy n); apply outcome_undefined.
    + destruct (JsString.is_empty s); simpl; [apply outcome_undefined|].
      destruct (is_bracketed s); [apply outcome_load_error|apply outcome_tags].
    + apply outcome_list.
  - destruct input as [| |b|n|s|l|o|f]; simpl; try apply outcome_undefined.
    + destruct b; apply outcome_undefined.
    + destruct (Js.num_truthy n); apply outcome_undefined.
    + destruct (JsString.is_empty s); simpl; [apply outcome_undefined|].
      destruct (is_bracketed s); [|apply outcome_tags].
      unfold try_catch. destruct (yaml_load s) as [loaded|e].
      * destruct (parseTags_returns select yaml_load depth loaded node w)
          as (tags & ms & Hrun).
        specialize (IH loaded node w). by rewrite Hrun in *.
      * apply outcome_load_error.
    + apply outcome_list.
Qed.

(** X6: whatever the input, [parseTags] returns [undefined] or an array of
    strings, each of them not empty and without white space at either end. *)
Theorem parseTags_clean depth input node w :
  fst (parseTags select yaml_load depth input node w) = Normal VUndefined
  \/ exists tags,
       fst (parseTags select yaml_load depth input node w)
       = Normal (VArr (map VStr tags))
       /\ Forall clean_tag tags.
Proof.
  destruct (parseTags_outcome depth input node w) as (ms & _ & Hcases).
  destruct Hcases as [[Hundefined _]|[_ Htags]].
  - by left.
  - by right.
Qed.

(** X7: [parseTags] reports at most one diagnostic, a load error or the
    warning about the list, and then returns [undefined]. *)
Theorem parseTags_messages depth input node w :
  exists ms,
    snd (parseTags select yaml_load depth input node w) = with_messages w ms
    /\ (ms = []
        \/ (fst (parseTags select yaml_load depth input node w) = Normal VUndefined
            /\ (ms = [tags_load_error select node]
                \/ ms = [tags_not_strings_warning select node]))).
Proof.
  destruct (parseTags_outcome depth input node w) as (ms & Hw & Hcases).
  exists ms. split; [exact Hw|].
  destruct Hcases as [[Hundefined [Hms|Hms]]|[Hms _]].
  - by left.
  - right. by split.
  - by left.
Qed.

(** X8: parsing a result of [parseTags] that is not empty gives it back. *)
Theorem parseTags_idempotent depth depth' input node w node' w' l :
  fst (parseTags select yaml_load depth input node w) = Normal (VArr l) ->
  l <> [] ->
  parseTags select yaml_load depth' (VArr l) node' w' = (Normal (VArr l), w').
Proof.
  intros Hrun Hne.
  destruct (parseTags_outcome depth input node w)
    as (ms & _ & [[Hu _]|(_ & tags & Htags & Hclean)]);
    rewrite Hrun in *; [discriminate|].
  injection Htags as ->.
  rewrite parseTags_string_list by (by destruct tags).
  by rewrite (trim_and_drop_empty_fixed _ Hclean).
Qed.

End MoreTagFacts.
(** *** Strings without separators *)

Lemma separator_free_cons c t :
  separator_free (String c t) = true ->
  JsString.is_comma c = false
  /\ JsString.space_width (String c t) = 0
  /\ separator_free t = true.
Proof.
  cbn [separator_free]. unfold tag_separator.
  intros [Hc Ht]%andb_true_iff. apply Nat.eqb_eq in Hc.
  by destruct (JsString.is_comma c).
Qed.

Lemma trimStart_free t : separator_free t = true -> JsString.trimStart t = t.
Proof.
  destruct t as [|c t]; [done|]. intros (_ & Hw & _)%separator_free_cons.
  apply trimStart_black. unfold starts_black. by rewrite Hw.
Qed.

Lemma trimEnd_free t : separator_free t = true -> JsString.trimEnd t = t.
Proof.
  induction t as [|c t IH]; [done|]. intros Hfree.
  cbn [JsString.trimEnd]. unfold JsString.is_blank.
  rewrite (trimStart_free _ Hfree). cbn [JsString.is_empty].
  apply separator_free_cons in Hfree as (_ & _ & Ht). by rewrite (IH Ht).
Qed.

Lemma separator_free_clean t :
  JsString.is_empty t = false -> separator_free t = true -> clean_tag t.
Proof.
  intros Hne Hfree. split; [done|].
  unfold JsString.trim. by rewrite (trimStart_free t Hfree), (trimEnd_free t Hfree).
Qed.

Lemma tag_separator_free c t :
  separator_free (String c t) = true -> tag_separator (String c t) = 0.
Proof. cbn [separator_free]. by intros [Hc%Nat.eqb_eq _]%andb_true_iff. Qed.

Lemma split_free t :
  separator_free t = true -> JsString.split_regex tag_separator t = [t].
Proof.
  unfold JsString.split_regex.
  induction t as [|c t IH]; [done|]. intros Hfree.
  cbn [JsString.split_from]. rewrite (tag_separator_free _ _ Hfree).
  apply separator_free_cons in Hfree as (_ & _ & Ht). by rewrite (IH Ht).
Qed.

(** No white space character has a comma among its bytes, so a comma after
    a string without separators does not make one. *)
Lemma is_space2_comma a : JsString.is_space2 a "," = false.
Proof. unfold JsString.is_space2. apply andb_false_r. Qed.

Lemma is_space3_comma2 a c : JsString.is_space3 a "," c = false.
Proof.
  unfold JsString.is_space3. cbv zeta.
  change (nat_of_ascii ",") with 44. cbn [Nat.eqb].
  by rewrite !andb_false_r.
Qed.

Lemma is_space3_comma3 a b : JsString.is_space3 a b "," = false.
Proof.
  unfold JsString.is_space3. cbv zeta.
  change (nat_of_ascii ",") with 44. cbn [Nat.eqb Nat.leb orb].
  by rewrite !andb_false_r.
Qed.

Lemma tag_separator_comma c t s :
  tag_separator (String c t) = 0 ->
  separator_free t = true ->
  tag_separator (String c (t ++ String "," s)) = 0.
Proof.
  unfold tag_separator. destruct (JsString.is_comma c); [discriminate|].
  destruct t as [|b [|d t]]; rewrite ?append_cons, ?append_empty;
    cbn [JsString.space_width].
  - destruct (JsString.is_space1 c); [discriminate|]. intros _ _.
    rewrite is_space2_comma. destruct s; [done|]. by rewrite is_space3_comma2.
  - destruct (JsString.is_space1 c); [discriminate|].
    destruct (JsString.is_space2 c b); [discriminate|]. intros _ _.
    by rewrite is_space3_comma3.
  - done.
Qed.

Lemma split_free_comma t s :
  separator_free t = true ->
  JsString.split_regex tag_separator (t ++ String "," s)%string
  = t :: JsString.split_regex tag_separator s.
Proof.
  unfold JsString.split_regex.
  induction t as [|c t IH]; [done|]. intros Hfree.
  rewrite append_cons. cbn [JsString.split_from].
  pose proof (tag_separator_free _ _ Hfree) as Hc.
  apply separator_free_cons in Hfree as (_ & _ & Ht).
  by rewrite (tag_separator_comma _ _ _ Hc Ht), (IH Ht).
Qed.

Lemma split_join_comma tags :
  tags <> [] ->
  Forall (fun t => separator_free t = true) tags ->
  JsString.split_regex tag_separator (join_comma tags) = tags.
Proof.
  intros Hne Hfree. induction Hfree as [|t rest Ht Hrest IH]; [done|].
  destruct rest as [|t' rest].
  - simpl. by apply split_free.
  - change (join_comma (t :: t' :: rest))
      with (t ++ String "," (join_comma (t' :: rest)))%string.
    rewrite (split_free_comma _ _ Ht). f_equal. by apply IH.
Qed.

Section TagRoundTrip.

Variable select : string -> JsVal -> JsVal.
Variable yaml_load : string -> Completion JsVal.

(** X9: tags without commas and white space, joined with commas, are parsed
    back as they were. *)
Theorem parseTags_join_comma depth tags node w :
  tags <> [] ->
  Forall (fun t => JsString.is_empty t = false /\ separator_free t = true) tags ->
  is_bracketed (join_comma tags) = false ->
  parseTags select yaml_load depth (VStr (join_comma tags)) node w
  = (Normal (VArr (map VStr tags)), w).
Proof.
  intros Hne Htags Hplain.
  rewrite parseTags_plain_string by done.
  rewrite split_join_comma;
    [|done|by eapply Forall_impl; [exact Htags|]; intros t [_ Ht]].
  rewrite trim_and_drop_empty_fixed.
  - by destruct tags.
  - eapply Forall_impl; [exact Htags|]. intros t [Hempty Hfree].
    by apply separator_free_clean.
Qed.

End TagRoundTrip.
(** ** More on the two directives *)

Lemma opt_without_caption data key :
  key <> "caption" ->
  opt (data_options (without_caption data)) key = opt (data_options data) key.
Proof.
  intros Hkey. unfold without_caption. simpl.
  destruct (data_options data) as [o|]; [|done]. simpl.
  by rewrite lookup_delete_ne.
Qed.

Lemma caption_without_caption data :
  opt (data_options (without_caption data)) "caption" = VUndefined.
Proof.
  unfold without_caption. simpl.
  destruct (data_options data) as [o|]; [|done]. simpl.
  by rewrite lookup_delete_eq.
Qed.

Lemma plain_code_without_caption data opts :
  plain_code (without_caption data) opts = plain_code data opts.
Proof. unfold plain_code. by rewrite opt_without_caption by discriminate. Qed.

Section MoreDirectiveFacts.

Variable StringToNumber : string -> JsNumber.
Variable ObjectToNumber : JsVal -> JsNumber.
Variable select : string -> JsVal -> JsVal.
Variable normalizeLabel : JsVal -> option NormalizedLabel.
Variable yaml_load : string -> Completion JsVal.
Variable nanoid_nth : nat -> string.

Local Abbreviation run_options := (getCodeBlockOptions StringToNumber ObjectToNumber select).
Local Abbreviation run_code :=
  (codeDirective_run StringToNumber ObjectToNumber select normalizeLabel).
Local Abbreviation run_cell :=
  (codeCellDirective_run select normalizeLabel yaml_load nanoid_nth).

(** [getCodeBlockOptions] does not look at the caption. *)
Lemma getCodeBlockOptions_without_caption data defaultFilename w :
  run_options (without_caption data) defaultFilename w
  = run_options data defaultFilename w.
Proof.
  unfold getCodeBlockOptions.
  rewrite !opt_without_caption by discriminate. reflexivity.
Qed.

(** C5 (as amended): [codeCellDirective.run] returns one block whose children
    are a [Code] node marked executable, whose language is the argument as it
    is, without any default, and an [Output] node with empty data and a new
    id: the next one of [nanoid], which differs from every id drawn before
    when [nanoid] does not repeat itself.  The "tags" option goes
    through [parseTags], which returns [undefined] or an array of strings.
    The block data has no [tags] field when the result is [undefined], and
    has the result as its [tags] when the result is an array that is not
    empty; nothing else is ever attached.  Without a "tags" option there is
    no such field and nothing is reported.  Nothing is said of the empty
    array. *)
Theorem codeCellDirective_run_block depth data w :
  exists tags ms field,
    parseTags select yaml_load depth (opt (data_options data) "tags") (data_node data)
      {| messages := messages w; ids_drawn := S (ids_drawn w) |}
    = (Normal tags,
       {| messages := messages w ++ ms; ids_drawn := S (ids_drawn w) |})
    /\ run_cell depth data w
       = (Normal
            [ NBlock (label_of (normalizeLabel (opt (data_options data) "label")))
                (identifier_of (normalizeLabel (opt (data_options data) "label")))
                [ NCode {| code_lang := data_arg data;
                           code_class := VUndefined;
                           code_opts := None;
                           code_executable := Some true;
                           code_value := Js.coalesce (data_body data) (VStr EmptyString);
                           code_label := None;
                           code_identifier := None |};
                  NOutput (nanoid_nth (ids_drawn w)) [] ]
                "notebook-code" field ],
          {| messages := messages w ++ ms; ids_drawn := S (ids_drawn w) |})
    /\ ((forall m n, nanoid_nth m = nanoid_nth n -> m = n) ->
        forall n, n < ids_drawn w -> nanoid_nth n <> nanoid_nth (ids_drawn w))
    /\ (tags = VUndefined \/ exists strings, tags = VArr (map VStr strings))
    /\ (tags = VUndefined -> field = None)
    /\ (forall strings, strings <> [] -> tags = VArr (map VStr strings) ->
          field = Some tags)
    /\ (forall attached, field = Some attached -> attached = tags)
    /\ (opt (data_options data) "tags" = VUndefined -> field = None /\ ms = []).
Proof.
  set (w1 := {| messages := messages w; ids_drawn := S (ids_drawn w) |}).
  pose proof (parseTags_outcome select yaml_load depth
                (opt (data_options data) "tags") (data_node data) w1) as Houtcome.
  destruct (parseTags_returns select yaml_load depth
              (opt (data_options data) "tags") (data_node data) w1)
    as (tags & ms & Hparse).
  rewrite Hparse in Houtcome.
  exists tags, ms, (if Js.truthy tags then Some tags else None).
  split; [exact Hparse|]. split.
  { unfold codeCellDirective_run, bind, nanoid. fold w1. by rewrite Hparse. }
  split.
  { intros Hinj n Hn Heq%Hinj. lia. }
  split.
  { destruct Houtcome as (ms' & _ & [[[= ->] _]|(_ & strings & [= ->] & _)]);
      [by left|right; eauto]. }
  split; [by intros ->|].
  split.
  { intros strings Hne ->. by destruct strings. }
  split.
  { intros attached. by destruct (Js.truthy tags); intros [= <-]. }
  intros Hnone. rewrite Hnone in Hparse.
  rewrite parseTags_falsy in Hparse by reflexivity.
  injection Hparse as <- Hms. split; [reflexivity|].
  apply (f_equal length) in Hms. rewrite length_app in Hms.
  destruct ms; [reflexivity|simpl in Hms; lia].
Qed.

(** X10: taking the caption away from a code directive only unwraps the [Code]
    node.  The node that was inside the container had no label and no
    identifier; without the caption the same node is returned itself, field
    by field, now with the label and the identifier that the container had,
    and the file gets the same messages. *)
Theorem codeDirective_run_without_caption data w kind label identifier code caption w' :
  run_code data w
    = (Normal [ NContainer kind label identifier [ NCode code; caption ] ], w') ->
  run_code (without_caption data) w
    = (Normal [ NCode {| code_lang := code_lang code;
                         code_class := code_class code;
                         code_opts := code_opts code;
                         code_executable := code_executable code;
                         code_value := code_value code;
                         code_label := Some label;
                         code_identifier := Some identifier |} ], w')
  /\ code_label code = None
  /\ code_identifier code = None.
Proof.
  unfold codeDirective_run, bind.
  rewrite getCodeBlockOptions_without_caption, caption_without_caption.
  rewrite !opt_without_caption by discriminate.
  destruct (run_options data VUndefined w) as [[opts|e] w1]; [|discriminate].
  rewrite plain_code_without_caption.
  destruct (Js.truthy (opt (data_options data) "caption")); simpl;
    [|discriminate].
  unfold ret. intros [= <- <- <- <- <- <-]. by repeat split.
Qed.

Lemma parseTags_ids depth input node w :
  ids_drawn (snd (parseTags select yaml_load depth input node w)) = ids_drawn w.
Proof.
  by destruct (parseTags_returns select yaml_load depth input node w)
    as (tags & ms & ->).
Qed.

(** X11: every cell draws exactly one id, so a cell built later has another id
    than a cell built before, as long as [nanoid] does not repeat itself. *)
Theorem codeCellDirective_run_fresh_id depth1 depth2 data1 data2 w1 w2 :
  (forall m n, nanoid_nth m = nanoid_nth n -> m = n) ->
  ids_drawn (snd (run_cell depth1 data1 w1)) <= ids_drawn w2 ->
  exists nodes1 nodes2 id1 id2,
    fst (run_cell depth1 data1 w1) = Normal nodes1
    /\ fst (run_cell depth2 data2 w2) = Normal nodes2
    /\ output_id nodes1 = Some id1
    /\ output_id nodes2 = Some id2
    /\ id1 <> id2
    /\ ids_drawn (snd (run_cell depth1 data1 w1)) = S (ids_drawn w1).
Proof.
  intros Hinj. unfold codeCellDirective_run, bind, nanoid.
  pose proof (parseTags_ids depth1 (opt (data_options data1) "tags")
                (data_node data1)
                {| messages := messages w1; ids_drawn := S (ids_drawn w1) |}) as Hid1.
  destruct (parseTags_returns select yaml_load depth1
              (opt (data_options data1) "tags") (data_node data1)
              {| messages := messages w1; ids_drawn := S (ids_drawn w1) |})
    as (tags1 & ms1 & Hrun1).
  destruct (parseTags_returns select yaml_load depth2
              (opt (data_options data2) "tags") (data_node data2)
              {| messages := messages w2; ids_drawn := S (ids_drawn w2) |})
    as (tags2 & ms2 & Hrun2).
  rewrite Hrun1 in *. rewrite Hrun2. simpl in *. intros Hle.
  do 4 eexists. repeat (split; [reflexivity|]). split; [|done].
  intros Heq%Hinj. lia.
Qed.

(** X12: a block has a [tags] field only when [parseTags] found tags and reported
    nothing: the tags are clean and the file has the messages it had. *)
Theorem codeCellDirective_run_tags depth data w nodes w' tags :
  run_cell depth data w = (Normal nodes, w') ->
  block_tags nodes = Some tags ->
  messages w' = messages w
  /\ exists strings, tags = VArr (map VStr strings) /\ Forall clean_tag strings.
Proof.
  unfold codeCellDirective_run, bind, nanoid.
  set (w1 := {| messages := messages w; ids_drawn := S (ids_drawn w) |}).
  destruct (parseTags_outcome select yaml_load depth
              (opt (data_options data) "tags") (data_node data) w1)
    as (ms & Hw & Hcases).
  destruct (parseTags select yaml_load depth _ _ w1) as [[found|e] w2];
    simpl in *; [|by destruct Hcases as [[[=] _]|(_ & ? & [=] & _)]].
  intros [= <- <-]. simpl.
  destruct Hcases as [[[= ->] _]|(-> & strings & [= ->] & Hstrings)];
    [discriminate|].
  simpl. intros [= <-]. split; [|eauto].
  subst w2. simpl. by rewrite app_nil_r.
Qed.

End MoreDirectiveFacts.
(** ** More on the character handlers *)

Lemma fold_insert_lookup {V} (entries : list (string * V)) (m : gmap string V) key v :
  fold_left (fun m kv => <[fst kv := snd kv]> m) entries m !! key = Some v ->
  In (key, v) entries \/ m !! key = Some v.
Proof.
  revert m. induction entries as [|[k x] entries IH]; intros m; simpl; [by right|].
  intros [Hin|Hm]%IH; [left; by right|].
  destruct (decide (k = key)) as [->|Hne].
  - rewrite lookup_insert_eq in Hm. injection Hm as ->. left. by left.
  - rewrite lookup_insert_ne in Hm by done. by right.
Qed.

Lemma fromEntries_lookup {V} (entries : list (string * V)) key v :
  Tex.fromEntries entries !! key = Some v -> In (key, v) entries.
Proof.
  unfold Tex.fromEntries. intros [Hin|Hm]%fold_insert_lookup; [done|].
  by rewrite lookup_empty in Hm.
Qed.

Lemma CHARACTER_HANDLERS_origin key handler :
  Tex.CHARACTER_HANDLERS !! key = Some handler ->
  exists macro,
    key = ("macro_" ++ macro)%string
    /\ ((exists translate,
           handler = Tex.AccentHandler translate /\ In (macro, translate) Tex.accents)
        \/ (exists symbol,
              handler = Tex.SymbolHandler symbol /\ In (macro, symbol) Tex.symbols)).
Proof.
  unfold Tex.CHARACTER_HANDLERS, Tex.spread.
  intros [Hsym|[_ Hacc]]%lookup_union_Some_raw.
  - apply fromEntries_lookup, in_map_iff in Hsym as ([macro symbol] & [= <- <-] & Hin).
    exists macro. split; [done|]. right. eauto.
  - apply fromEntries_lookup, in_map_iff in Hacc as ([macro translate] & [= <- <-] & Hin).
    exists macro. split; [done|]. left. eauto.
Qed.

(** X13: the table has one handler for each macro of the two tables, so no
    two macros share a name, and every handler of the table belongs to a
    macro of one of the two tables, under the name of the macro with the
    prefix: a name without the prefix, or of no macro, has no handler. *)
Theorem CHARACTER_HANDLERS_exact :
  size Tex.CHARACTER_HANDLERS = (length Tex.accents + length Tex.symbols)%nat
  /\ forall key handler,
       Tex.CHARACTER_HANDLERS !! key = Some handler ->
       exists macro,
         key = ("macro_" ++ macro)%string
         /\ ((exists translate,
                handler = Tex.AccentHandler translate
                /\ In (macro, translate) Tex.accents)
             \/ (exists symbol,
                   handler = Tex.SymbolHandler symbol
                   /\ In (macro, symbol) Tex.symbols)).
Proof.
  split; [vm_compute; reflexivity|]. apply CHARACTER_HANDLERS_origin.
Qed.

Lemma symbol_handler macro symbol :
  In (macro, symbol) Tex.symbols ->
  Tex.CHARACTER_HANDLERS !! ("macro_" ++ macro)%string
  = Some (Tex.SymbolHandler symbol)
  /\ Js.truthy (VStr symbol) = true.
Proof.
  unfold Tex.symbols. intros Hin. simpl in Hin.
  repeat (destruct Hin as [[= <- <-]|Hin]; [split; vm_compute; reflexivity|]).
  destruct Hin.
Qed.

Section SymbolFacts.

Context {State : Type} `{Tex.ITexParser State}.
Variable group_text : JsVal -> string.

(** X14: every symbol macro has its handler, and the handler always opens the
    paragraph and appends the symbol: no symbol of the table is empty, so
    [addText] never returns early. *)
Theorem addText_symbol macro symbol node (state : State) :
  In (macro, symbol) Tex.symbols ->
  Tex.CHARACTER_HANDLERS !! ("macro_" ++ macro)%string
    = Some (Tex.SymbolHandler symbol)
  /\ Tex.run_handler group_text (Tex.SymbolHandler symbol) node state
     = Tex.text (VStr symbol) false (Tex.openParagraph state).
Proof.
  intros [Hhandler Htruthy]%symbol_handler. split; [done|].
  simpl. unfold Tex.addText. by rewrite Htruthy.
Qed.

End SymbolFacts.
(** ** More on the site build *)

Module BuildMore.

Import Build BuildFacts BuildTrace.

Ltac invert_run H := inversion H; subst; clear H.

(** X15: [touched] counts pages among those that the results report, so it is at
    most their number; it is at most [pages.length] when no result reports
    more than one page. *)
Theorem count_touched_bound pages :
  count_touched pages <= total_reported pages
  /\ (Forall (fun v => length (processed_of v) <= 1) pages ->
      count_touched pages <= length pages).
Proof.
  unfold count_touched, total_reported. split.
  - apply List.filter_length_le.
  - intros Hone.
    etransitivity; [apply List.filter_length_le|].
    induction Hone as [|v pages Hv _ IH]; simpl; [done|].
    rewrite length_app. lia.
Qed.

Lemma processFile_calls_app es es' :
  processFile_calls (es ++ es') = processFile_calls es ++ processFile_calls es'.
Proof. unfold processFile_calls. apply flat_map_app. Qed.

Lemma processFile_calls_settles es :
  forallb settles es = true -> processFile_calls es = [].
Proof.
  induction es as [|e es IH]; [done|]. simpl.
  intros [He Hes]%andb_true_iff. rewrite (IH Hes). by destruct e.
Qed.

Lemma processFile_calls_map siteProject pages :
  processFile_calls (map (fun page => EvCall (ProcessFile siteProject page)) pages)
  = map (pair siteProject) pages.
Proof. induction pages as [|p pages IH]; simpl; by rewrite ?IH. Qed.

Lemma page_slot_later siteProject events es page r :
  page_slot siteProject events page r -> page_slot siteProject (events ++ es) page r.
Proof.
  intros [->|[(v & -> & Hin)|(e & ->)]]; [by left| |right; right; eauto].
  right. left. exists v. split; [done|]. apply in_or_app. by left.
Qed.

Lemma page_slots_later siteProject events es pages rs :
  Forall2 (page_slot siteProject events) pages rs ->
  Forall2 (page_slot siteProject (events ++ es)) pages rs.
Proof.
  intros Hslots. eapply Forall2_impl; [exact Hslots|].
  intros page r. apply page_slot_later.
Qed.

Lemma page_slots_initial siteProject events pages :
  Forall2 (page_slot siteProject events) pages
    (map (fun page => RExt (ProcessFile siteProject page)) pages).
Proof. induction pages; simpl; constructor; [by left|done]. Qed.

Lemma page_slots_fulfilled siteProject events pages vs :
  Forall2 (page_slot siteProject events) pages (map fulfilled vs) ->
  Forall2 (fun page v => In (EvFulfilled (ProcessFile siteProject page) v) events)
    pages vs.
Proof.
  revert pages. induction vs as [|v vs IH]; intros pages Hslots; simpl in Hslots.
  - inversion Hslots. constructor.
  - inversion Hslots as [|page r pages' rs' Hslot Hrest]; subst.
    constructor; [|by apply IH].
    destruct Hslot as [[=]|[(v' & [= <-] & Hin)|(e & [=])]]. done.
Qed.

Section ProjectProgress.

Variable loadProjectConfigFromDisk : string -> Completion Project.

Local Abbreviation build_project := (buildProject loadProjectConfigFromDisk).

Lemma project_progress_initial siteProject project :
  loadProjectConfigFromDisk (path siteProject) = Normal project ->
  project_progress siteProject project (initial (build_project siteProject)).
Proof.
  intros Hload. left. unfold initial, buildProject. rewrite Hload. simpl.
  eexists. split; [reflexivity|]. split; [constructor|done].
Qed.

Lemma project_progress_step siteProject project c es c' :
  project_state siteProject c ->
  project_progress siteProject project c ->
  config_step c es c' ->
  project_progress siteProject project c'.
Proof.
  intros [Horphans _] Hprogress Hstep. invert_run Hstep.
  - match goal with Hs : run_step (main c) _ _ _ |- _ => rename Hs into Hrun end.
    destruct Hprogress
      as [(cr & Hm & Hcr & Hcalls)|[(rs & Hm & Hslots & Hcalls)
          |[(e & Hm & Hcalls)|(vs & Hm & Hvs & Hcalls)]]];
      rewrite Hm in Hrun.
    + invert_run Hrun.
      * match goal with Hs : run_step cr _ _ _ |- _ =>
          destruct (citation_run_step _ _ _ _ _ Hcr Hs) as (Hc' & -> & Hes & _) end.
        left. cbn [main trace]. eexists. split; [reflexivity|]. split; [done|].
        by rewrite processFile_calls_app, Hcalls, (processFile_calls_settles _ Hes).
      * rewrite start_buildProject_pages. cbn [fst snd].
        right. left. cbn [main trace]. eexists. split; [reflexivity|]. split.
        { apply page_slots_initial. }
        by rewrite processFile_calls_app, Hcalls, processFile_calls_map.
      * right. right. left. cbn [main trace]. eexists. split; [reflexivity|].
        left. by rewrite app_nil_r.
    + invert_run Hrun.
      * apply Forall2_app_inv_r in Hslots as (ps1 & ps2 & Hs1 & Hs2 & Hps).
        apply Forall2_cons_inv_r in Hs2 as (page & ps2' & Hslot & Hs2 & ->).
        match goal with Hs : run_step _ _ _ _ |- _ => rename Hs into Hchild end.
        destruct Hslot as [->|[(v & -> & _)|(e & ->)]];
          [|by destruct (done_no_step _ _ _ _ Hchild)..].
        invert_run Hchild.
        -- right. left. cbn [main trace]. eexists. split; [reflexivity|]. split.
           { rewrite Hps. apply Forall2_app; [by apply page_slots_later|].
             constructor; [|by apply page_slots_later].
             right. left. eexists. split; [reflexivity|].
             apply in_or_app. right. by left. }
           by rewrite processFile_calls_app, Hcalls, app_nil_r.
        -- right. left. cbn [main trace]. eexists. split; [reflexivity|]. split.
           { rewrite Hps. apply Forall2_app; [by apply page_slots_later|].
             constructor; [|by apply page_slots_later].
             right. right. eauto. }
           by rewrite processFile_calls_app, Hcalls, app_nil_r.
      * destruct (start_buildProject_report siteProject vs) as [message Hstart].
        rewrite Hstart. cbn [fst snd].
        right. right. right. cbn [main trace]. exists vs. split; [reflexivity|].
        split.
        { apply page_slots_fulfilled. by apply page_slots_later. }
        by rewrite processFile_calls_app, Hcalls, app_nil_r.
      * right. right. left. cbn [main trace]. eexists. split; [reflexivity|].
        right. by rewrite app_nil_r.
    + by destruct (done_no_step _ _ _ _ Hrun).
    + by destruct (done_no_step _ _ _ _ Hrun).
  - match goal with Ho : orphans c = _, Hs : run_step _ _ _ _ |- _ =>
      rewrite Ho in Horphans;
      destruct (orphan_page_step _ _ _ _ _ _ Horphans Hs) as [_ Hes] end.
    unfold project_progress. cbn [main trace].
    destruct Hprogress
      as [(cr & Hm & Hcr & Hcalls)|[(rs & Hm & Hslots & Hcalls)
          |[(e & Hm & Hcalls)|(vs & Hm & Hvs & Hcalls)]]].
    + left. exists cr. split; [done|]. split; [done|].
      by rewrite processFile_calls_app, Hcalls, (processFile_calls_settles _ Hes).
    + right. left. exists rs. split; [done|]. split; [by apply page_slots_later|].
      by rewrite processFile_calls_app, Hcalls, (processFile_calls_settles _ Hes),
        app_nil_r.
    + right. right. left. exists e. split; [done|].
      rewrite processFile_calls_app, (processFile_calls_settles _ Hes), app_nil_r.
      done.
    + right. right. right. exists vs. split; [done|]. split.
      * eapply Forall2_impl; [exact Hvs|]. intros page v Hin.
        apply in_or_app. by left.
      * by rewrite processFile_calls_app, Hcalls, (processFile_calls_settles _ Hes),
          app_nil_r.
Qed.

Lemma project_progress_reachable siteProject project c :
  loadProjectConfigFromDisk (path siteProject) = Normal project ->
  reachable (build_project siteProject) c ->
  project_progress siteProject project c.
Proof.
  intros Hload Hreach.
  induction Hreach as [|c es c' Hreach IH Hstep].
  - by apply project_progress_initial.
  - eapply project_progress_step; [|exact IH|exact Hstep].
    by eapply project_state_reachable.
Qed.

(** X16: [buildProject] calls [processFile] for the index page and for the pages
    with a slug, in the order of the project, each once and all in the same
    turn; an entry without a slug is never processed. *)
Theorem buildProject_calls siteProject project c :
  loadProjectConfigFromDisk (path siteProject) = Normal project ->
  reachable (build_project siteProject) c ->
  processFile_calls (trace c) = []
  \/ processFile_calls (trace c) = map (pair siteProject) (built_pages project).
Proof.
  intros Hload Hreach.
  destruct (project_progress_reachable _ _ _ Hload Hreach)
    as [(cr & _ & _ & Hcalls)|[(rs & _ & _ & Hcalls)
        |[(e & _ & Hcalls)|(vs & _ & _ & Hcalls)]]]; auto.
Qed.

(** X17: when [buildProject] is fulfilled, its [pages] are the results of the
    calls of [processFile] in the order of the pages, whatever the order in
    which they were fulfilled, and [touched] is their count. *)
Theorem buildProject_result siteProject project c v :
  loadProjectConfigFromDisk (path siteProject) = Normal project ->
  reachable (build_project siteProject) c ->
  main c = RDone (Normal v) ->
  exists pages,
    v = Built pages (count_touched pages)
    /\ Forall2 (fun page result =>
                  In (EvFulfilled (ProcessFile siteProject page) result) (trace c))
         (built_pages project) pages.
Proof.
  intros Hload Hreach Hmain.
  destruct (project_progress_reachable _ _ _ Hload Hreach)
    as [(cr & Hm & _)|[(rs & Hm & _)|[(e & Hm & _)|(vs & Hm & Hvs & _)]]];
    rewrite Hm in Hmain; try discriminate.
  injection Hmain as <-. eauto.
Qed.

(** X18: when the configuration of the project cannot be loaded, [buildProject]
    is rejected with that error at once: it asks for no citation renderer
    and processes no page. *)
Theorem buildProject_load_failure siteProject e c :
  loadProjectConfigFromDisk (path siteProject) = Thrown e ->
  reachable (build_project siteProject) c ->
  c = {| main := RDone (Thrown e); orphans := []; trace := [] |}.
Proof.
  intros Hload Hreach. induction Hreach as [|c es c' _ IH Hstep].
  - unfold initial, buildProject. by rewrite Hload.
  - subst c. invert_run Hstep.
    + match goal with Hs : run_step _ _ _ _ |- _ =>
        by destruct (done_no_step _ _ _ _ Hs) end.
    + match goal with Ho : orphans _ = _ |- _ => simpl in Ho end.
      match goal with Ho : [] = ?l ++ _ :: _ |- _ => by destruct l end.
Qed.

End ProjectProgress.

Lemma project_event_quiet e :
  project_event e = true -> writes_manifest e = false /\ removes e = false.
Proof. destruct e as [[]| | |]; simpl; try done. Qed.

Lemma project_events_quiet es :
  forallb project_event es = true ->
  manifest_writes es = 0 /\ removals es = 0.
Proof.
  unfold manifest_writes, removals.
  induction es as [|e es IH]; [done|]. simpl.
  intros [[Hw Hr]%project_event_quiet Hes]%andb_true_iff.
  rewrite Hw, Hr. by apply IH.
Qed.

Lemma settles_project_events es :
  forallb settles es = true -> forallb project_event es = true.
Proof.
  induction es as [|e es IH]; [done|]. simpl.
  intros [He Hes]%andb_true_iff. rewrite (IH Hes). by destruct e.
Qed.

Lemma calls_project_events siteProject pages :
  forallb project_event
    (map (fun page => EvCall (ProcessFile siteProject page)) pages) = true.
Proof. by induction pages. Qed.

Lemma manifest_writes_app es es' :
  manifest_writes (es ++ es') = manifest_writes es + manifest_writes es'.
Proof. unfold manifest_writes. by rewrite List.filter_app, length_app. Qed.

Lemma removals_app es es' : removals (es ++ es') = removals es + removals es'.
Proof. unfold removals. by rewrite List.filter_app, length_app. Qed.

Section SiteProgress.

Variable loadProjectConfigFromDisk : string -> Completion Project.

Local Abbreviation build_project := (buildProject loadProjectConfigFromDisk).
Local Abbreviation build_site := (buildSite loadProjectConfigFromDisk).
Local Abbreviation site_inv := (site_state loadProjectConfigFromDisk).

(** What a step of a project emits. *)
Lemma project_run_step_events r es os r' :
  project_run r -> run_step r es os r' -> forallb project_event es = true.
Proof.
  intros Hproj Hstep. destruct Hproj as [sp project c Hc|sp rs Hrs|c].
  - invert_run Hstep.
    + match goal with Hs : run_step c _ _ _ |- _ =>
        destruct (citation_run_step _ _ _ _ _ Hc Hs) as (_ & _ & Hes & _) end.
      by apply settles_project_events.
    + rewrite start_buildProject_pages. cbn [fst snd]. apply calls_project_events.
    + done.
  - invert_run Hstep.
    + apply Forall_app in Hrs as [_ Hafter].
      inversion Hafter as [|? ? Hc _]; subst.
      match goal with Hs : run_step c _ _ _ |- _ =>
        destruct (page_run_step _ _ _ _ Hc Hs) as (_ & _ & Hes) end.
      by apply settles_project_events.
    + unfold buildProject_report. simpl. by destruct (0 <? count_touched vs)%nat.
    + done.
  - by destruct (done_no_step _ _ _ _ Hstep).
Qed.

Lemma start_buildProject_events siteProject :
  forallb project_event (snd (start (build_project siteProject))) = true.
Proof.
  unfold buildProject.
  by destruct (loadProjectConfigFromDisk (path siteProject)).
Qed.

(** The three kinds of step of a call of [buildSite]: a step of a project or
    of a run left behind, the step that writes the manifest, and the silent
    steps by which the call settles. *)
Lemma site_step_events config c es c' :
  site_inv config c -> config_step c es c' ->
  (forallb project_event es = true
   /\ (main c' = main c
       \/ exists rs rs', main c = RWaitAll rs buildSite_manifest
                         /\ main c' = RWaitAll rs' buildSite_manifest))
  \/ (es = [EvEffect (LogInfo MsgWritingSiteConfig); EvEffect WriteConfigJson]
      /\ (exists vs, main c = RWaitAll (map fulfilled vs) buildSite_manifest)
      /\ main c' = RWait (fulfilled Unit) buildSite_return)
  \/ (es = []
      /\ ((exists rs e, main c = RWaitAll rs buildSite_manifest
                        /\ main c' = RDone (Thrown e))
          \/ (main c = RWait (fulfilled Unit) buildSite_return
              /\ main c' = RDone (Normal Cache)))).
Proof.
  intros [Horphans Hmain] Hstep. invert_run Hstep.
  - match goal with Hs : run_step (main c) _ _ _ |- _ => rename Hs into Hrun end.
    destruct Hmain as [(rs & Hm & Hof & Hrs & Hleft)|[Hm|[x Hm]]]; rewrite Hm in *.
    + invert_run Hrun.
      * left. split; [|right; cbn [main]; eauto].
        apply Forall_app in Hrs as [_ Hafter].
        inversion Hafter as [|? ? Hc0 _]; subst.
        by eapply project_run_step_events.
      * right. left. split; [done|]. split; [eauto|done].
      * right. right. split; [done|]. left. cbn [main]. eauto.
    + invert_run Hrun.
      * match goal with Hs : run_step (RDone _) _ _ _ |- _ =>
          by destruct (done_no_step _ _ _ _ Hs) end.
      * right. right. split; [done|]. by right.
    + by destruct (done_no_step _ _ _ _ Hrun).
  - left. split; [|by left].
    match goal with Ho : orphans c = _, Hs : run_step _ _ _ _ |- _ =>
      rewrite Ho in Horphans; rename Hs into Hrun end.
    apply Forall_app in Horphans as [_ Hafter].
    inversion Hafter as [|? ? Ho' _]; subst.
    destruct Ho' as [Hp|Hp].
    + by eapply project_run_step_events.
    + destruct (page_run_step _ _ _ _ Hp Hrun) as (_ & _ & Hes).
      by apply settles_project_events.
Qed.

Lemma site_inv_reachable session opts c :
  reachable (build_site session opts) c ->
  site_inv {| projects := configured_projects session |} c.
Proof.
  induction 1 as [|c es c' _ IH Hstep].
  - unfold configured_projects.
    destruct (local_site_config session) as [[projs]|] eqn:Hconfig.
    + by apply site_state_initial.
    + split; [constructor|]. right. right. unfold initial.
      rewrite start_buildSite_no_projects; [simpl; eauto|].
      unfold no_projects. by rewrite Hconfig.
  - by destruct (site_state_step _ _ _ _ _ IH Hstep).
Qed.

Lemma buildSite_prefix_counts session opts :
  manifest_writes (buildSite_prefix session opts) = 0
  /\ removals (buildSite_prefix session opts)
     = (if force opts || clean opts then 2 else 0)
  /\ processFile_calls (buildSite_prefix session opts) = []
  /\ forall op, ~ In (EvCall op) (buildSite_prefix session opts).
Proof.
  unfold buildSite_prefix. destruct (force opts || clean opts); simpl.
  all: repeat split; try done.
  all: intros op Hin.
  all: repeat (destruct Hin as [Hin|Hin]; [discriminate Hin|]); destruct Hin.
Qed.

Lemma start_projects_events (projs : list SiteProject) :
  forallb project_event
    (concat (map (fun siteProject => snd (start (build_project siteProject))) projs))
  = true.
Proof.
  induction projs as [|sp projs IH]; [done|]. simpl.
  rewrite forallb_app, IH. by rewrite start_buildProject_events.
Qed.

(** The trace of [buildSite] begins with the clean step, when asked for, and
    the creation of the folders; what follows in the first turn are the
    first steps of the projects. *)
Lemma start_buildSite_trace session opts :
  exists rest,
    snd (start (build_site session opts)) = buildSite_prefix session opts ++ rest
    /\ forallb project_event rest = true.
Proof.
  destruct (local_site_config session) as [config|] eqn:Hconfig.
  - destruct (projects config) as [|sp projs] eqn:Hprojects.
    + exists []. rewrite start_buildSite_no_projects, app_nil_r; [done|].
      unfold no_projects. by rewrite Hconfig.
    + rewrite (start_buildSite _ _ _ config Hconfig) by (by rewrite Hprojects).
      eexists. split; [reflexivity|]. apply start_projects_events.
  - exists []. rewrite start_buildSite_no_projects, app_nil_r; [done|].
    unfold no_projects. by rewrite Hconfig.
Qed.

Lemma written_as_expected_step session opts c es c' :
  reachable (build_site session opts) c ->
  written_as_expected session c -> config_step c es c' ->
  written_as_expected session c'.
Proof.
  intros Hreach Hwritten Hstep.
  pose proof (trace_step _ _ _ Hstep) as Htrace.
  destruct (site_step_events _ _ _ _ (site_inv_reachable _ _ _ Hreach) Hstep)
    as [[Hes Hmain]|[(-> & [vs Hm] & Hm')|(-> & Hmain)]];
    unfold written_as_expected in *; rewrite Htrace, manifest_writes_app.
  - destruct (project_events_quiet _ Hes) as [-> _]. rewrite Nat.add_0_r.
    destruct Hmain as [->|(rs & rs' & Hm & ->)]; [done|]. by rewrite Hm in Hwritten.
  - rewrite Hm'. rewrite Hm in Hwritten. destruct Hwritten as [-> Hne]. done.
  - rewrite Nat.add_0_r.
    destruct Hmain as [(rs & e & Hm & ->)|[Hm ->]]; rewrite Hm in Hwritten.
    + by destruct Hwritten.
    + destruct Hwritten as [-> Hne]. split; [done|].
      by destruct (configured_projects session).
Qed.

Lemma written_as_expected_reachable session opts c :
  reachable (build_site session opts) c -> written_as_expected session c.
Proof.
  induction 1 as [|c es c' Hreach IH Hstep].
  - unfold written_as_expected, initial, configured_projects. cbn [main trace].
    destruct (local_site_config session) as [config|] eqn:Hconfig.
    + destruct (projects config) as [|sp projs] eqn:Hprojects.
      * rewrite start_buildSite_no_projects
          by (unfold no_projects; by rewrite Hconfig).
        cbn [fst snd]. split; [done|]. apply buildSite_prefix_counts.
      * rewrite (start_buildSite _ _ _ config Hconfig) by (by rewrite Hprojects).
        cbn [fst snd]. split; [|done].
        rewrite manifest_writes_app.
        destruct (buildSite_prefix_counts session opts) as [-> _].
        by destruct (project_events_quiet _ (start_projects_events (projects config))).
    + rewrite start_buildSite_no_projects
        by (unfold no_projects; by rewrite Hconfig).
      cbn [fst snd]. split; [done|]. apply buildSite_prefix_counts.
  - by eapply written_as_expected_step.
Qed.

(** X19: the manifest is written at most once in a build; a call of [buildSite]
    that has returned has returned the cache and has written the manifest
    exactly when the site has a project; a call that was rejected has not
    written it. *)
Theorem buildSite_manifest_once session opts c :
  reachable (build_site session opts) c ->
  manifest_writes (trace c) <= 1
  /\ (forall e, main c = RDone (Thrown e) -> manifest_writes (trace c) = 0)
  /\ (forall v, main c = RDone (Normal v) ->
        v = Cache
        /\ (manifest_writes (trace c) = 1 <-> configured_projects session <> [])).
Proof.
  intros Hwritten%written_as_expected_reachable.
  unfold written_as_expected in Hwritten.
  destruct (main c) as [[v|e]|op|r k|rs k].
  - destruct Hwritten as [-> Hn]. rewrite Hn.
    split; [destruct (length _ =? 0)%nat; lia|]. split; [intros e [=]|].
    intros v [= <-]. split; [done|].
    destruct (configured_projects session); simpl; [|done]. split; [lia|done].
  - rewrite Hwritten. split; [lia|]. split; [done|]. intros v [=].
  - done.
  - destruct Hwritten as [-> _]. split; [lia|]. split; [intros e [=]|intros v [=]].
  - destruct Hwritten as [-> _]. split; [lia|]. split; [intros e [=]|intros v [=]].
Qed.

Lemma project_events_site_events es :
  forallb project_event es = true -> forallb site_event es = true.
Proof.
  induction es as [|e es IH]; [done|]. simpl.
  intros [He Hes]%andb_true_iff. unfold site_event at 1. by rewrite He, (IH Hes).
Qed.

Lemma site_events_removals es : forallb site_event es = true -> removals es = 0.
Proof.
  unfold removals. induction es as [|e es IH]; [done|]. simpl.
  intros [He Hes]%andb_true_iff.
  assert (removes e = false) as ->; [|by apply IH].
  by destruct e as [[]| | |].
Qed.

(** The trace of [buildSite]: the clean step, when asked for, and the
    creation of the folders, and after these only events of the projects
    and the two effects of [writeSiteManifest]. *)
Lemma site_trace_events session opts c :
  reachable (build_site session opts) c ->
  exists rest,
    trace c = buildSite_prefix session opts ++ rest
    /\ forallb site_event rest = true.
Proof.
  induction 1 as [|c es c' Hreach (rest & IH & Hrest) Hstep].
  - unfold initial. cbn [trace].
    destruct (start_buildSite_trace session opts) as (rest & -> & Hrest).
    exists rest. split; [done|]. by apply project_events_site_events.
  - exists (rest ++ es). rewrite (trace_step _ _ _ Hstep), IH, <- app_assoc.
    split; [done|]. rewrite forallb_app, Hrest. simpl.
    destruct (site_step_events _ _ _ _ (site_inv_reachable _ _ _ Hreach) Hstep)
      as [[Hes _]|[(-> & _)|(-> & _)]]; [|done..].
    by apply project_events_site_events.
Qed.

(** X20: the build output is removed exactly once, in the first turn, when
    the options ask for a forced or a clean build, and never otherwise. *)
Theorem buildSite_removals session opts c :
  reachable (build_site session opts) c ->
  removals (trace c) = (if force opts || clean opts then 2 else 0).
Proof.
  intros (rest & -> & Hrest)%site_trace_events.
  rewrite removals_app, (site_events_removals _ Hrest).
  destruct (buildSite_prefix_counts session opts) as (_ & -> & _).
  apply Nat.add_0_r.
Qed.

(** X21: whatever is asked of the cache, and the write of the manifest, come
    after the creation of the two build folders. *)
Theorem buildSite_folders_first session opts c before e after :
  reachable (build_site session opts) c ->
  trace c = before ++ e :: after ->
  (exists op, e = EvCall op) \/ e = EvEffect WriteConfigJson ->
  In (EvEffect MkdirContent) before /\ In (EvEffect MkdirStatic) before.
Proof.
  intros (rest & Hprefix & _)%site_trace_events Htrace He.
  rewrite Hprefix in Htrace.
  assert (Hfolders : In (EvEffect MkdirContent) (buildSite_prefix session opts)
                     /\ In (EvEffect MkdirStatic) (buildSite_prefix session opts)).
  { unfold buildSite_prefix. split; apply in_or_app; right; simpl; auto. }
  assert (Hnot : ~ In e (buildSite_prefix session opts)).
  { intros Hin. destruct He as [[op ->]| ->].
    - by eapply buildSite_prefix_counts.
    - destruct (buildSite_prefix_counts session opts) as [Hw _].
      unfold manifest_writes in Hw.
      assert (In (EvEffect WriteConfigJson)
                (List.filter writes_manifest (buildSite_prefix session opts)))
        as Hf by (by apply filter_In).
      by destruct (List.filter writes_manifest (buildSite_prefix session opts)). }
  apply app_eq_app in Htrace as [l [[Hp Hl]|[Hb Hl]]].
  - destruct l as [|x l].
    + rewrite app_nil_r in Hp. by rewrite <- Hp.
    + injection Hl as <- _. destruct Hnot. rewrite Hp.
      apply in_or_app. right. by left.
  - rewrite Hb. destruct Hfolders. split; apply in_or_app; by left.
Qed.

End SiteProgress.

(** A call that logs two lines and awaits another call goes through the
    configurations of that call, with the two lines in front of the trace,
    until the other call settles; then it settles too. *)
Lemma await_simulation first second (awaited : Async) c :
  reachable (Perform first (Perform second (Await awaited Watch.processor_return))) c ->
  exists c0,
    reachable awaited c0
    /\ trace c = EvEffect first :: EvEffect second :: trace c0
    /\ orphans c = orphans c0
    /\ (main c = RWait (main c0) Watch.processor_return
        \/ (exists v, main c0 = RDone (Normal v) /\ main c = RDone (Normal Unit))
        \/ (exists e, main c0 = RDone (Thrown e) /\ main c = RDone (Thrown e))).
Proof.
  induction 1 as [|c es c' _ (c0 & Hreach & Htrace & Horphans & Hmain) Hstep].
  - exists (initial awaited). split; [apply reach_initial|].
    unfold initial. simpl. destruct (start awaited) as [r es]. simpl. auto.
  - invert_run Hstep.
    + match goal with Hs : run_step (main c) _ _ _ |- _ => rename Hs into Hrun end.
      destruct Hmain as [Hm|[(v & Hm0 & Hm)|(e & Hm0 & Hm)]]; rewrite Hm in Hrun;
        [|by destruct (done_no_step _ _ _ _ Hrun)..].
      invert_run Hrun.
      * match goal with Hs : run_step (main c0) _ _ _ |- _ =>
          exists {| main := c'; orphans := orphans c0 ++ os; trace := trace c0 ++ es |};
          split; [eapply reach_step; [exact Hreach|by apply step_main]|] end.
        cbn [main orphans trace]. rewrite Htrace, Horphans. auto.
      * match goal with Hv : RDone (Normal _) = main c0 |- _ => symmetry in Hv end.
        exists c0. split; [done|]. cbn [main orphans trace].
        rewrite !app_nil_r. split; [done|]. split; [done|]. right. left. eauto.
      * match goal with He : RDone (Thrown _) = main c0 |- _ => symmetry in He end.
        exists c0. split; [done|]. cbn [main orphans trace].
        rewrite !app_nil_r. split; [done|]. split; [done|]. right. right. eauto.
    + match goal with Ho : orphans c = _, Hs : run_step _ _ _ _ |- _ =>
        rewrite Horphans in Ho;
        exists {| main := main c0; orphans := before ++ o' :: after ++ os;
                  trace := trace c0 ++ es |};
        split; [eapply reach_step; [exact Hreach|by eapply step_orphan]|] end.
      cbn [main orphans trace]. rewrite Htrace. auto.
Qed.

(** X22: [watchContent] watches the paths of the projects of the site, in
    their order and recursively, and then the configuration file; without
    a site configuration it watches nothing, not even the configuration
    file.  The listener does nothing at all for a file under the build
    output.  For any other file it logs two lines and awaits [buildSite]
    with empty options: its executions are those of that build, after the
    two lines, and it settles when the build does.  Such a rebuild never
    removes the build output, and it starts with the creation of the
    folders. *)
Theorem watchContent_rebuild loadProjectConfigFromDisk CURVENOTE_YML session
    eventType filename :
  map Watch.watched (Watch.watchContent CURVENOTE_YML session)
  = (match local_site_config session with
     | Some config => map path (projects config) ++ [CURVENOTE_YML]
     | None => []
     end)
  /\ map Watch.recursive (Watch.watchContent CURVENOTE_YML session)
     = (match local_site_config session with
        | Some config => map (fun _ => true) (projects config) ++ [false]
        | None => []
        end)
  /\ (String.prefix "_build" filename = true ->
      forall c,
        reachable (Watch.processor loadProjectConfigFromDisk session eventType filename) c ->
        c = {| main := RDone (Normal Unit); orphans := []; trace := [] |})
  /\ (String.prefix "_build" filename = false ->
      forall c,
        reachable (Watch.processor loadProjectConfigFromDisk session eventType filename) c ->
        exists c0 rest,
          reachable (buildSite loadProjectConfigFromDisk session
                       {| force := false; clean := false |}) c0
          /\ trace c
             = EvEffect (LogDebug (MsgFileModified filename eventType))
               :: EvEffect (LogDebug MsgRebuildingEverything) :: trace c0
          /\ trace c0
             = [EvEffect (LogDebug MsgBuildFoldersCreated); EvEffect MkdirContent;
                EvEffect MkdirStatic;
                EvEffect (LogDebug (MsgSiteConfig (local_site_config session)))]
               ++ rest
          /\ orphans c = orphans c0
          /\ (main c = RWait (main c0) Watch.processor_return
              \/ (exists v, main c0 = RDone (Normal v) /\ main c = RDone (Normal Unit))
              \/ (exists e, main c0 = RDone (Thrown e) /\ main c = RDone (Thrown e)))
          /\ removals (trace c) = 0).
Proof.
  split.
  { unfold Watch.watchContent. destruct (local_site_config session); [|done].
    rewrite map_app, map_map. reflexivity. }
  split.
  { unfold Watch.watchContent. destruct (local_site_config session); [|done].
    rewrite map_app, map_map. reflexivity. }
  unfold Watch.processor. split; intros ->.
  - intros c Hreach. induction Hreach as [|c es c' _ IH Hstep]; [done|].
    subst c. invert_run Hstep.
    + match goal with Hs : run_step _ _ _ _ |- _ =>
        by destruct (done_no_step _ _ _ _ Hs) end.
    + match goal with Ho : orphans _ = _ |- _ => simpl in Ho end.
      match goal with Ho : [] = ?l ++ _ :: _ |- _ => by destruct l end.
  - intros c (c0 & Hreach & Htrace & Horphans & Hmain)%await_simulation.
    destruct (site_trace_events _ _ _ _ Hreach) as (rest & Hprefix & Hrest).
    exists c0, rest. split; [done|]. split; [done|]. split; [done|].
    split; [done|]. split; [done|].
    rewrite Htrace, Hprefix. unfold removals. simpl.
    by apply (site_events_removals rest).
Qed.

End BuildMore.
(** ** Runs for the further properties *)

Local Abbreviation more_options :=
  (getCodeBlockOptions Sample.StringToNumber Sample.ObjectToNumber Sample.select).
Local Abbreviation more_code :=
  (codeDirective_run Sample.StringToNumber Sample.ObjectToNumber Sample.select
     Sample.normalizeLabel).
Local Abbreviation more_cell :=
  (codeCellDirective_run Sample.select Sample.normalizeLabel Sample.yaml_load
     Sample.nanoid_nth).
Local Abbreviation more_tags := (parseTags Sample.select Sample.yaml_load).

Lemma getCodeBlockOptions_start_range_witness :
  startingLineNumber SampleMore.both_linenos_result = VUndefined
  \/ startingLineNumber SampleMore.both_linenos_result = VStr "match"
  \/ (Js.nullish (startingLineNumber SampleMore.both_linenos_result) = false
      /\ le_one Sample.StringToNumber Sample.ObjectToNumber
           (startingLineNumber SampleMore.both_linenos_result) = false
      /\ (startingLineNumber SampleMore.both_linenos_result
          = opt (data_options Sample.both_linenos) "number-lines"
          \/ startingLineNumber SampleMore.both_linenos_result
             = opt (data_options Sample.both_linenos) "lineno-start")).
Proof.
  apply (getCodeBlockOptions_start_range Sample.StringToNumber Sample.ObjectToNumber
           Sample.select Sample.both_linenos VUndefined Sample.world).
  reflexivity.
Defined.

Lemma getCodeBlockOptions_start_shown_witness :
  showLineNumbers SampleMore.both_linenos_result = VBool true.
Proof.
  apply (getCodeBlockOptions_start_shown Sample.StringToNumber Sample.ObjectToNumber
           Sample.select Sample.both_linenos VUndefined Sample.world).
  - reflexivity.
  - reflexivity.
  - reflexivity.
  - discriminate.
Defined.


Lemma parseTags_idempotent_witness :
  more_tags 0 (VArr (map VStr SampleMore.two_tags)) VNull Sample.world
  = (Normal (VArr (map VStr SampleMore.two_tags)), Sample.world).
Proof.
  apply (parseTags_idempotent Sample.select Sample.yaml_load 1 0
           (VStr "remove-input, hide-cell") VNull Sample.world).
  - reflexivity.
  - discriminate.
Defined.

Lemma parseTags_join_comma_witness :
  more_tags 0 (VStr (join_comma SampleMore.two_tags)) VNull Sample.world
  = (Normal (VArr (map VStr SampleMore.two_tags)), Sample.world).
Proof.
  apply parseTags_join_comma.
  - discriminate.
  - repeat constructor.
  - reflexivity.
Defined.

Lemma codeDirective_run_without_caption_witness :
  more_code (without_caption Sample.captioned) Sample.world
  = (Normal [ NCode {| code_lang := VStr "python";
                       code_class := VUndefined;
                       code_opts := Some Sample.no_code_options;
                       code_executable := None;
                       code_value := VStr "print(1)";
                       code_label := Some (VStr "lst");
                       code_identifier := Some (VStr "lst") |} ],
     Sample.world)
  /\ code_label (plain_code Sample.captioned Sample.no_code_options) = None
  /\ code_identifier (plain_code Sample.captioned Sample.no_code_options) = None.
Proof.
  apply (codeDirective_run_without_caption Sample.StringToNumber
           Sample.ObjectToNumber Sample.select Sample.normalizeLabel
           Sample.captioned Sample.world "code" (VStr "lst") (VStr "lst")
           (plain_code Sample.captioned Sample.no_code_options)
           (NCaption [ NParagraph Sample.caption_nodes ])).
  reflexivity.
Defined.

Lemma sample_nanoid_injective m :
  forall n, Sample.nanoid_nth m = Sample.nanoid_nth n -> m = n.
Proof.
  induction m as [|m IH]; intros [|n]; simpl; try done.
  intros [= Heq]. f_equal. by apply IH.
Qed.

Lemma codeCellDirective_run_block_witness :
  exists tags ms field,
    more_tags 1 (opt (data_options SampleMore.tagged_cell) "tags")
      (data_node SampleMore.tagged_cell)
      {| messages := messages Sample.world; ids_drawn := S (ids_drawn Sample.world) |}
    = (Normal tags,
       {| messages := messages Sample.world ++ ms;
          ids_drawn := S (ids_drawn Sample.world) |})
    /\ more_cell 1 SampleMore.tagged_cell Sample.world
       = (Normal
            [ NBlock
                (label_of (Sample.normalizeLabel
                             (opt (data_options SampleMore.tagged_cell) "label")))
                (identifier_of (Sample.normalizeLabel
                                  (opt (data_options SampleMore.tagged_cell) "label")))
                [ NCode {| code_lang := data_arg SampleMore.tagged_cell;
                           code_class := VUndefined;
                           code_opts := None;
                           code_executable := Some true;
                           code_value :=
                             Js.coalesce (data_body SampleMore.tagged_cell)
                               (VStr EmptyString);
                           code_label := None;
                           code_identifier := None |};
                  NOutput (Sample.nanoid_nth (ids_drawn Sample.world)) [] ]
                "notebook-code" field ],
          {| messages := messages Sample.world ++ ms;
             ids_drawn := S (ids_drawn Sample.world) |})
    /\ ((forall m n, Sample.nanoid_nth m = Sample.nanoid_nth n -> m = n) ->
        forall n, n < ids_drawn Sample.world ->
          Sample.nanoid_nth n <> Sample.nanoid_nth (ids_drawn Sample.world))
    /\ (tags = VUndefined \/ exists strings, tags = VArr (map VStr strings))
    /\ (tags = VUndefined -> field = None)
    /\ (forall strings, strings <> [] -> tags = VArr (map VStr strings) ->
          field = Some tags)
    /\ (forall attached, field = Some attached -> attached = tags)
    /\ (opt (data_options SampleMore.tagged_cell) "tags" = VUndefined ->
        field = None /\ ms = []).
Proof. apply codeCellDirective_run_block. Defined.

(** The block of the tagged cell: python, the first id, the two tags. *)
Example codeCellDirective_tagged_cell :
  fst (more_cell 1 SampleMore.tagged_cell Sample.world)
  = Normal
      [ NBlock VUndefined VUndefined
          [ NCode {| code_lang := VStr "python"; code_class := VUndefined;
                     code_opts := None; code_executable := Some true;
                     code_value := VStr "print(1)";
                     code_label := None; code_identifier := None |};
            NOutput "id" [] ]
          "notebook-code"
          (Some (VArr [VStr "remove-input"; VStr "hide-cell"])) ].
Proof. reflexivity. Qed.

Lemma codeCellDirective_run_fresh_id_witness :
  exists nodes1 nodes2 id1 id2,
    fst (more_cell 1 SampleMore.tagged_cell Sample.world) = Normal nodes1
    /\ fst (more_cell 1 SampleMore.plain_cell
              (snd (more_cell 1 SampleMore.tagged_cell Sample.world)))
       = Normal nodes2
    /\ output_id nodes1 = Some id1
    /\ output_id nodes2 = Some id2
    /\ id1 <> id2
    /\ ids_drawn (snd (more_cell 1 SampleMore.tagged_cell Sample.world))
       = S (ids_drawn Sample.world).
Proof.
  apply codeCellDirective_run_fresh_id.
  - intros m n. apply sample_nanoid_injective.
  - apply le_n.
Defined.

Lemma codeCellDirective_run_tags_witness :
  messages {| messages := []; ids_drawn := 1 |} = messages Sample.world
  /\ exists strings,
       VArr (map VStr SampleMore.two_tags) = VArr (map VStr strings)
       /\ Forall clean_tag strings.
Proof.
  eapply (codeCellDirective_run_tags Sample.select Sample.normalizeLabel
            Sample.yaml_load Sample.nanoid_nth 1 SampleMore.tagged_cell
            Sample.world).
  - reflexivity.
  - reflexivity.
Defined.

Lemma addText_symbol_witness :
  Tex.CHARACTER_HANDLERS !! ("macro_" ++ "dag")%string
    = Some (Tex.SymbolHandler "†")
  /\ Tex.run_handler Sample.group_text (Tex.SymbolHandler "†") VNull
       ([] : list Tex.Call)
     = Tex.text (VStr "†") false (Tex.openParagraph []).
Proof. apply addText_symbol. simpl. do 7 right. left. reflexivity. Defined.

Module SampleMoreRuns.

Import Build SampleSite SampleMore.

Lemma project4_reachable :
  reachable (buildProject loadProjectConfigFromDisk docs) project4.
Proof.
  eapply reach_step; [eapply reach_step; [apply SampleRuns.project2_reachable|]|].
  - exact (step_main project2 _ _ _
             (step_all_child [] _ [] _ _ _ _
                (step_fulfil index_file (PageResults [true])))).
  - exact (step_main project3 _ _ _
             (step_all_resume [PageResults [true]] (buildProject_report docs))).
Qed.

End SampleMoreRuns.

Lemma buildProject_calls_witness :
  BuildTrace.processFile_calls (Build.trace SampleSite.project2) = []
  \/ BuildTrace.processFile_calls (Build.trace SampleSite.project2)
     = map (pair SampleSite.docs) (BuildTrace.built_pages SampleSite.docs_project).
Proof.
  apply (BuildMore.buildProject_calls SampleSite.loadProjectConfigFromDisk).
  - reflexivity.
  - apply SampleRuns.project2_reachable.
Defined.

Lemma buildProject_result_witness :
  exists pages,
    Build.Built [Build.PageResults [true]] 1
    = Build.Built pages (Build.count_touched pages)
    /\ Forall2 (fun page result =>
                  In (Build.EvFulfilled (Build.ProcessFile SampleSite.docs page) result)
                    (Build.trace SampleMore.project4))
         (BuildTrace.built_pages SampleSite.docs_project) pages.
Proof.
  apply (BuildMore.buildProject_result SampleSite.loadProjectConfigFromDisk).
  - reflexivity.
  - apply SampleMoreRuns.project4_reachable.
  - reflexivity.
Defined.

Lemma buildProject_load_failure_witness :
  Build.initial (Build.buildProject SampleMore.missing_project SampleSite.docs)
  = {| Build.main := Build.RDone (Thrown (YAMLException "no project configuration"));
       Build.orphans := []; Build.trace := [] |}.
Proof.
  apply (BuildMore.buildProject_load_failure SampleMore.missing_project
           SampleSite.docs).
  - reflexivity.
  - apply Build.reach_initial.
Defined.

Lemma buildSite_manifest_once_witness :
  BuildTrace.manifest_writes (Build.trace SampleSite.site5) <= 1
  /\ (forall e, Build.main SampleSite.site5 = Build.RDone (Thrown e) ->
        BuildTrace.manifest_writes (Build.trace SampleSite.site5) = 0)
  /\ (forall v, Build.main SampleSite.site5 = Build.RDone (Normal v) ->
        v = Build.Cache
        /\ (BuildTrace.manifest_writes (Build.trace SampleSite.site5) = 1
            <-> BuildTrace.configured_projects SampleSite.session <> [])).
Proof.
  apply (BuildMore.buildSite_manifest_once SampleSite.loadProjectConfigFromDisk
           SampleSite.session SampleSite.opts).
  apply SampleRuns.site5_reachable.
Defined.

Lemma buildSite_removals_witness :
  BuildTrace.removals (Build.trace SampleSite.site5)
  = (if Build.force SampleSite.opts || Build.clean SampleSite.opts then 2 else 0).
Proof.
  apply (BuildMore.buildSite_removals SampleSite.loadProjectConfigFromDisk
           SampleSite.session SampleSite.opts).
  apply SampleRuns.site5_reachable.
Defined.

Lemma buildSite_folders_first_witness :
  In (Build.EvEffect Build.MkdirContent)
    (Build.buildSite_prefix SampleSite.session SampleSite.opts)
  /\ In (Build.EvEffect Build.MkdirStatic)
       (Build.buildSite_prefix SampleSite.session SampleSite.opts).
Proof.
  apply (BuildMore.buildSite_folders_first SampleSite.loadProjectConfigFromDisk
           SampleSite.session SampleSite.opts SampleSite.site0
           (Build.buildSite_prefix SampleSite.session SampleSite.opts)
           (Build.EvCall SampleSite.citations) []).
  - apply Build.reach_initial.
  - reflexivity.
  - left. eexists. reflexivity.
Defined.
